(** * Sentinel-Audit: the audit decision engine of [api/index.py]

    The development has these layers.

    - [Py]: the fragment of the Python runtime that the engine runs on:
      exceptions, decoded JSON values, [str.lower], substring membership,
      [str()]/[repr()], [float()], the operators [in] and [[]], and the
      [.2f] format.  Python strings are sequences of code points; they are
      modelled by [string], one [ascii] per code point, which covers the
      code points U+0000..U+00FF.  Python floats are IEEE 754 binary64
      numbers, modelled by [spec_float] with [prec = 53], [emax = 1024].
    - the engine itself: [check_for_banned_keywords], [check_refund_amount]
      and [audit_request], transcribed statement by statement, with
      exceptions kept explicit in the [result] type.
    - [StartSystem]: [kill_process_on_port] of [start_system.py], as the
      trace of lines printed and commands run against an operating system
      that answers each command.

    Outside the model: the interpreter's recursion limit and its limit on
    the number of digits of an int turned into text; [str] and [repr] are
    total here.  [request.get_json()] and [jsonify] belong to Flask:
    [audit_request] starts from the decoded value and ends with the
    dictionary and the status code it hands back; [audit_route] puts the
    [try] around [get_json()] back, and [Stateful] runs the same functions
    in the module state. *)

From Stdlib Require Import ZArith QArith List String Ascii Bool Lia.
From Stdlib Require Import DecimalString DecimalPos.
From Stdlib Require Import Floats.SpecFloat.
Import ListNotations.

Local Open Scope string_scope.
Local Open Scope Z_scope.

(* ===================================================================== *)
(** * The Python runtime fragment                                         *)
(* ===================================================================== *)

Module Py.

(** ** Exceptions and the result of a computation *)

Inductive exn : Type :=
| TypeError
| ValueError
| OverflowError
| KeyError.

Definition exn_eqb (a b : exn) : bool :=
  match a, b with
  | TypeError, TypeError => true
  | ValueError, ValueError => true
  | OverflowError, OverflowError => true
  | KeyError, KeyError => true
  | _, _ => false
  end.

Inductive result (A : Type) : Type :=
| Ok (a : A)
| Raise (e : exn).

Arguments Ok {A} a.
Arguments Raise {A} e.

Definition bind {A B : Type} (c : result A) (k : A -> result B) : result B :=
  match c with
  | Ok a => k a
  | Raise e => Raise e
  end.

(** [try: body / except (classes): handler]: an exception of [body] whose
    class is listed runs [handler]; any other exception propagates. *)
Definition try_except {A : Type} (body : result A) (classes : list exn)
    (handler : result A) : result A :=
  match body with
  | Ok a => Ok a
  | Raise e => if existsb (exn_eqb e) classes then handler else Raise e
  end.

(** ** Strings *)

Definition code (c : ascii) : Z := Z.of_N (N_of_ascii c).
Definition chr (z : Z) : ascii := ascii_of_N (Z.to_N z).

(** [str.lower] on one code point below U+0100: A-Z, and the Latin-1
    capitals U+00C0..U+00DE except the multiplication sign U+00D7. *)
Definition lower_char (c : ascii) : ascii :=
  let n := code c in
  if ((65 <=? n) && (n <=? 90))
     || ((192 <=? n) && (n <=? 222) && negb (n =? 215))
  then chr (n + 32) else c.

Fixpoint lower (s : string) : string :=
  match s with
  | EmptyString => EmptyString
  | String c t => String (lower_char c) (lower t)
  end.

(** [sub in s] for two strings: naive substring search. *)
Fixpoint starts_with (sub s : string) : bool :=
  match sub, s with
  | EmptyString, _ => true
  | String a sub', String b s' => Ascii.eqb a b && starts_with sub' s'
  | String _ _, EmptyString => false
  end.

Fixpoint str_contains (sub s : string) : bool :=
  starts_with sub s ||
  match s with
  | EmptyString => false
  | String _ t => str_contains sub t
  end.

Fixpoint join (sep : string) (l : list string) : string :=
  match l with
  | [] => ""
  | [x] => x
  | x :: rest => x ++ sep ++ join sep rest
  end.

Fixpoint repeat_char (c : ascii) (n : nat) : string :=
  match n with
  | O => ""
  | S k => String c (repeat_char c k)
  end.

(** [str(n)] for an int. *)
Definition str_of_int (z : Z) : string := NilZero.string_of_int (Z.to_int z).

(** ** Floats: IEEE 754 binary64 *)

Definition prec : Z := 53.
Definition emax : Z := 1024.

Definition float : Type := spec_float.

(** The binary64 number nearest to the integer [z] (ties to even);
    an infinity when [z] is out of range. *)
Definition nearest_of_Z (z : Z) : float := binary_normalize prec emax z 0 false.

(** The binary64 number nearest to [n / d]. *)
Definition nearest_of_ratio (neg : bool) (n d : positive) : float :=
  let '(q, e, l) := SFdiv_core_binary prec emax (Zpos n) 0 (Zpos d) 0 in
  binary_round_aux prec emax neg q e l.

(** The binary64 number nearest to [(-1)^neg * m * 10^k]. *)
Definition nearest_of_decimal (neg : bool) (m k : Z) : float :=
  match m with
  | Zpos p =>
      if 0 <=? k
      then binary_normalize prec emax (cond_Zopp neg (Zpos p * 10 ^ k)) 0 neg
      else nearest_of_ratio neg p (Z.to_pos (10 ^ (- k)))
  | _ => S754_zero neg
  end.

Definition float_eqb_repr (a b : float) : bool :=
  match a, b with
  | S754_zero s, S754_zero s' => Bool.eqb s s'
  | S754_infinity s, S754_infinity s' => Bool.eqb s s'
  | S754_nan, S754_nan => true
  | S754_finite s m e, S754_finite s' m' e' =>
      Bool.eqb s s' && Pos.eqb m m' && (e =? e')
  | _, _ => false
  end.

(** [f > n] for a float and an int: Python compares the two exactly. *)
Definition float_gt_int (f : float) (n : Z) : bool :=
  match f with
  | S754_nan => false
  | S754_infinity s => negb s
  | S754_zero _ => 0 >? n
  | S754_finite s m e =>
      let sm := cond_Zopp s (Zpos m) in
      if 0 <=? e then sm * 2 ^ e >? n else sm >? n * 2 ^ (- e)
  end.

(** [n / d] rounded to the nearest integer, ties to even ([0 <= n], [0 < d]). *)
Definition round_half_even (n d : Z) : Z :=
  let q := n / d in
  match 2 * (n mod d) ?= d with
  | Lt => q
  | Gt => q + 1
  | Eq => if Z.even q then q else q + 1
  end.

Definition digit_char (d : Z) : ascii := chr (48 + d).

(** [format(f, '.2f')]: the exact value rounded to hundredths, ties to even. *)
Definition format_2f (f : float) : string :=
  match f with
  | S754_nan => "nan"
  | S754_infinity s => if s then "-inf" else "inf"
  | S754_zero s => if s then "-0.00" else "0.00"
  | S754_finite s m e =>
      let h := if 0 <=? e then Zpos m * 2 ^ e * 100
               else round_half_even (Zpos m * 100) (2 ^ (- e)) in
      (if s then "-" else "") ++ str_of_int (h / 100) ++ "."
        ++ String (digit_char ((h mod 100) / 10))
             (String (digit_char (h mod 10)) "")
  end.

(** *** [repr] of a float: the shortest decimal string that reads back as
    the same float, the closest one among the shortest. *)

(** [10^k <= n/d] and [floor (log10 (n/d))] for positive [n], [d]. *)
Definition pow10_le (k n d : Z) : bool :=
  if 0 <=? k then 10 ^ k * d <=? n else d <=? n * 10 ^ (- k).

Definition floor_log10 (n d : Z) : Z :=
  let b := Z.log2 n - Z.log2 d in
  let k0 := (b * 30103) / 100000 in
  if pow10_le (k0 + 2) n d then k0 + 2
  else if pow10_le (k0 + 1) n d then k0 + 1
  else if pow10_le k0 n d then k0
  else if pow10_le (k0 - 1) n d then k0 - 1
  else k0 - 2.

(** The [ndigits]-digit decimals around [n/d], at scale [10^s]: the floor
    [lo], and whether the rest is below, at or above one half. *)
Definition scaled_floor (n d s : Z) : Z * comparison :=
  let n' := if 0 <=? s then n else n * 10 ^ (- s) in
  let d' := if 0 <=? s then d * 10 ^ s else d in
  (n' / d', 2 * (n' mod d') ?= d').

Definition reads_back (x : float) (c s : Z) : bool :=
  float_eqb_repr (nearest_of_decimal false c s) x.

(** One attempt with [ndigits] digits; [x] is the float [n/d], positive. *)
Definition shortest_try (x : float) (n d k ndigits : Z) : option (Z * Z) :=
  let s := k - ndigits + 1 in
  let '(lo, half) := scaled_floor n d s in
  let ok_lo := reads_back x lo s in
  let ok_hi := reads_back x (lo + 1) s in
  match ok_lo, ok_hi with
  | true, true =>
      match half with
      | Lt => Some (lo, s)
      | Gt => Some (lo + 1, s)
      | Eq => Some (if Z.even lo then lo else lo + 1, s)
      end
  | true, false => Some (lo, s)
  | false, true => Some (lo + 1, s)
  | false, false => None
  end.

Fixpoint shortest_from (x : float) (n d k ndigits : Z) (fuel : nat) : Z * Z :=
  match fuel with
  | O =>
      let s := k - 16 in
      let '(lo, half) := scaled_floor n d s in
      (match half with
       | Lt => lo
       | Gt => lo + 1
       | Eq => if Z.even lo then lo else lo + 1
       end, s)
  | S fuel' =>
      match shortest_try x n d k ndigits with
      | Some r => r
      | None => shortest_from x n d k (ndigits + 1) fuel'
      end
  end.

Fixpoint strip_zeros_rev (s : list ascii) : list ascii :=
  match s with
  | c :: t => if Ascii.eqb c "0" then strip_zeros_rev t else s
  | [] => []
  end.

Definition strip_trailing_zeros (s : string) : string :=
  string_of_list_ascii
    (rev (strip_zeros_rev (rev (list_ascii_of_string s)))).

Definition substring_from (n : nat) (s : string) : string :=
  substring n (String.length s - n) s.

(** Layout of the digits [ds] with the decimal point after [decpt] digits,
    as [repr] does it: exponent notation outside [-4 < decpt <= 16]. *)
Definition layout_repr (ds : string) (decpt : Z) : string :=
  let nd := Z.of_nat (String.length ds) in
  if (decpt <=? -4) || (16 <? decpt) then
    let ex := decpt - 1 in
    let mant := match ds with
                | String c EmptyString => ds
                | String c t => String c ("." ++ t)
                | EmptyString => ds
                end in
    let ea := Z.abs ex in
    mant ++ "e" ++ (if ex <? 0 then "-" else "+")
      ++ (if ea <? 10 then "0" else "") ++ str_of_int ea
  else if decpt <=? 0 then
    "0." ++ repeat_char "0" (Z.to_nat (- decpt)) ++ ds
  else if nd <=? decpt then
    ds ++ repeat_char "0" (Z.to_nat (decpt - nd)) ++ ".0"
  else
    substring 0 (Z.to_nat decpt) ds ++ "." ++ substring_from (Z.to_nat decpt) ds.

Definition float_repr (f : float) : string :=
  match f with
  | S754_nan => "nan"
  | S754_infinity s => if s then "-inf" else "inf"
  | S754_zero s => if s then "-0.0" else "0.0"
  | S754_finite s m e =>
      let n := if 0 <=? e then Zpos m * 2 ^ e else Zpos m in
      let d := if 0 <=? e then 1 else 2 ^ (- e) in
      let k := floor_log10 n d in
      let '(c, sc) := shortest_from (S754_finite false m e) n d k 1 17 in
      let all := str_of_int c in
      let decpt := Z.of_nat (String.length all) + sc in
      (if s then "-" else "") ++ layout_repr (strip_trailing_zeros all) decpt
  end.

(** *** [float(...)] *)

(** [float(n)] for an int: [OverflowError] when the nearest float is not
    finite. *)
Definition float_of_int (z : Z) : result float :=
  match nearest_of_Z z with
  | S754_infinity _ => Raise OverflowError
  | f => Ok f
  end.

Definition is_digit (c : ascii) : bool := (48 <=? code c) && (code c <=? 57).

(** White space that [float] strips: tab, LF, VT, FF, CR and space. *)
Definition is_c_space (c : ascii) : bool :=
  ((9 <=? code c) && (code c <=? 13)) || (code c =? 32).

(** Before parsing, U+0085 and U+00A0 become a space, and every other code
    point above U+007F becomes a question mark. *)
Definition to_ascii_char (c : ascii) : ascii :=
  if code c <? 128 then c
  else if (code c =? 133) || (code c =? 160) then " "%char else "?"%char.

Fixpoint to_ascii (s : string) : string :=
  match s with
  | EmptyString => EmptyString
  | String c t => String (to_ascii_char c) (to_ascii t)
  end.

Fixpoint lstrip (s : string) : string :=
  match s with
  | String c t => if is_c_space c then lstrip t else s
  | EmptyString => EmptyString
  end.

Fixpoint lstrip_list (s : list ascii) : list ascii :=
  match s with
  | c :: t => if is_c_space c then lstrip_list t else s
  | [] => []
  end.

Definition strip (s : string) : string :=
  string_of_list_ascii
    (rev (lstrip_list (rev (list_ascii_of_string (lstrip s))))).

(** Underscores may only stand between two digits; they are removed. *)
Fixpoint drop_underscores (prev : ascii) (s : string) : option string :=
  match s with
  | EmptyString => if Ascii.eqb prev "_" then None else Some EmptyString
  | String c t =>
      if Ascii.eqb c "_" then
        if is_digit prev then drop_underscores c t else None
      else if Ascii.eqb prev "_" && negb (is_digit c) then None
      else option_map (String c) (drop_underscores c t)
  end.

Fixpoint take_digits (s : string) (acc cnt : Z) : Z * Z * string :=
  match s with
  | String c t =>
      if is_digit c then take_digits t (10 * acc + (code c - 48)) (cnt + 1)
      else (acc, cnt, s)
  | EmptyString => (acc, cnt, s)
  end.

Definition take_sign (s : string) : bool * string :=
  match s with
  | String c t =>
      if Ascii.eqb c "-" then (true, t)
      else if Ascii.eqb c "+" then (false, t)
      else (false, s)
  | EmptyString => (false, s)
  end.

(** The exponent part [e[+-]digits]; it is read only when it has a digit. *)
Definition take_exponent (s : string) : Z * string :=
  match s with
  | String c t =>
      if Ascii.eqb (lower_char c) "e" then
        let '(eneg, t1) := take_sign t in
        let '(ev, ecnt, t2) := take_digits t1 0 0 in
        if 0 <? ecnt then (cond_Zopp eneg ev, t2) else (0, s)
      else (0, s)
  | EmptyString => (0, s)
  end.

(** A decimal literal: [digits [. digits] [exponent]] or [. digits [exponent]]. *)
Definition parse_decimal (neg : bool) (s : string) : option float :=
  let '(ip, icnt, r1) := take_digits s 0 0 in
  let '(m, fcnt, r2) :=
    match r1 with
    | String c t => if Ascii.eqb c "." then take_digits t ip 0 else (ip, 0, r1)
    | EmptyString => (ip, 0, r1)
    end in
  if 0 <? icnt + fcnt then
    let '(ex, r3) := take_exponent r2 in
    match r3 with
    | EmptyString => Some (nearest_of_decimal neg m (ex - fcnt))
    | String _ _ => None
    end
  else None.

Definition parse_inf_or_nan (neg : bool) (s : string) : option float :=
  let l := lower s in
  if String.eqb l "inf" || String.eqb l "infinity" then Some (S754_infinity neg)
  else if String.eqb l "nan" then Some S754_nan
  else None.

(** [float(s)] for a string. *)
Definition float_of_str (s : string) : result float :=
  match drop_underscores "000"%char (strip (to_ascii s)) with
  | None => Raise ValueError
  | Some s1 =>
      let '(neg, s2) := take_sign s1 in
      match parse_decimal neg s2 with
      | Some f => Ok f
      | None =>
          match parse_inf_or_nan neg s2 with
          | Some f => Ok f
          | None => Raise ValueError
          end
      end
  end.

(** ** Decoded JSON values *)

#[local] Set Warnings "-register-all".

(** What [json] decoding yields: [None], [bool], [int], [float], [str],
    [list], and [dict] with string keys, kept in insertion order. *)
Inductive value : Type :=
| VNone
| VBool (b : bool)
| VInt (n : Z)
| VFloat (f : float)
| VStr (s : string)
| VList (items : list value)
| VDict (entries : list (string * value)).

(** ** [repr] and [str] *)

Definition squote : ascii := chr 39.
Definition dquote : ascii := chr 34.
Definition backslash : ascii := chr 92.

Definition hex_digit (d : Z) : ascii :=
  if d <? 10 then chr (48 + d) else chr (87 + d).

(** Code points below U+0100 that [repr] escapes: the control characters,
    DEL, U+0080..U+00A0 and the soft hyphen U+00AD. *)
Definition is_printable (c : ascii) : bool :=
  let n := code c in
  negb ((n <? 32) || ((127 <=? n) && (n <=? 160)) || (n =? 173)).

Definition repr_char (quote c : ascii) : string :=
  if Ascii.eqb c quote || Ascii.eqb c backslash then
    String backslash (String c EmptyString)
  else if code c =? 9 then String backslash "t"
  else if code c =? 10 then String backslash "n"
  else if code c =? 13 then String backslash "r"
  else if is_printable c then String c EmptyString
  else String backslash
         (String "x" (String (hex_digit (code c / 16))
                        (String (hex_digit (code c mod 16)) EmptyString))).

Fixpoint has_char (q : ascii) (s : string) : bool :=
  match s with
  | EmptyString => false
  | String c t => Ascii.eqb c q || has_char q t
  end.

Fixpoint repr_chars (quote : ascii) (s : string) : string :=
  match s with
  | EmptyString => EmptyString
  | String c t => repr_char quote c ++ repr_chars quote t
  end.

(** Single quotes, unless the text has a single quote and no double one. *)
Definition str_repr (s : string) : string :=
  let quote := if has_char squote s && negb (has_char dquote s)
               then dquote else squote in
  String quote (repr_chars quote s ++ String quote EmptyString).

Fixpoint repr (v : value) : string :=
  match v with
  | VNone => "None"
  | VBool b => if b then "True" else "False"
  | VInt n => str_of_int n
  | VFloat f => float_repr f
  | VStr s => str_repr s
  | VList items => "[" ++ join ", " (map repr items) ++ "]"
  | VDict entries =>
      "{" ++ join ", "
               (map (fun kv => str_repr (fst kv) ++ ": " ++ repr (snd kv))
                  entries)
        ++ "}"
  end.

(** [str(v)]: a string is its own text, everything else prints as [repr]. *)
Definition str (v : value) : string :=
  match v with
  | VStr s => s
  | _ => repr v
  end.

(** ** [float(v)] *)

Definition py_float (v : value) : result float :=
  match v with
  | VBool b => float_of_int (if b then 1 else 0)
  | VInt n => float_of_int n
  | VFloat f => Ok f
  | VStr s => float_of_str s
  | VNone | VList _ | VDict _ => Raise TypeError
  end.

(** ** [key in data] and [data[key]] for a string [key] *)

Fixpoint lookup (key : string) (entries : list (string * value)) : option value :=
  match entries with
  | [] => None
  | (k, v) :: rest => if String.eqb k key then Some v else lookup key rest
  end.

Definition eq_str (key : string) (v : value) : bool :=
  match v with
  | VStr s => String.eqb s key
  | _ => false
  end.

(** A dict tests its keys, a list its elements, a string its substrings;
    the other values are not containers. *)
Definition contains (data : value) (key : string) : result bool :=
  match data with
  | VDict entries =>
      Ok (match lookup key entries with Some _ => true | None => false end)
  | VList items => Ok (existsb (eq_str key) items)
  | VStr s => Ok (str_contains key s)
  | VNone | VBool _ | VInt _ | VFloat _ => Raise TypeError
  end.

(** Only a dict can be subscripted with a string. *)
Definition getitem (data : value) (key : string) : result value :=
  match data with
  | VDict entries =>
      match lookup key entries with
      | Some v => Ok v
      | None => Raise KeyError
      end
  | _ => Raise TypeError
  end.

End Py.

(* ===================================================================== *)
(** * The engine: [api/index.py]                                          *)
(* ===================================================================== *)

Import Py.

Notation "x <- c ;; k" := (bind c (fun x => k))
  (at level 61, c at next level, right associativity).

(** ** Configuration *)

(** The module-level names the functions read when they run. *)
Record globals : Type := {
  BANNED_KEYWORDS : list string;
  MAX_REFUND_AMOUNT : Z
}.

(** The values [api/index.py] binds them to when it is loaded. *)
Definition module_globals : globals := {|
  BANNED_KEYWORDS :=
    [ "DROP TABLE";
      "DELETE FROM";
      "refund > 500";
      "angry";
      "unauthorized";
      "exec(";
      "eval(";
      "wasting our time";
      "shut up";
      "idiot" ];
  MAX_REFUND_AMOUNT := 500
|}.

(** ** [check_for_banned_keywords] *)

(** The loop [for keyword in BANNED_KEYWORDS]: return at the first hit. *)
Fixpoint for_keyword_in (keywords : list string) (data_lower : string)
  : bool * option string :=
  match keywords with
  | [] => (false, None)
  | keyword :: rest =>
      if str_contains (lower keyword) data_lower
      then (true, Some keyword)
      else for_keyword_in rest data_lower
  end.

Definition check_for_banned_keywords (g : globals) (data_str : string)
  : bool * option string :=
  let data_lower := lower data_str in
  for_keyword_in (BANNED_KEYWORDS g) data_lower.

(** ** [check_refund_amount] *)

Definition refund_fields : list string := ["refund_amount"; "refund"; "amount"].

(** One turn of the loop body.  [Some r] is [return r]; [None] is reaching
    the end of the body or [continue].  The membership test stands before
    the [try], so what it raises is not handled here. *)
Definition refund_field_step (g : globals) (data : value) (field : string)
  : result (option (bool * option float)) :=
  present <- contains data field ;;
  if present then
    try_except
      (item <- getitem data field ;;
       amount <- py_float item ;;
       if float_gt_int amount (MAX_REFUND_AMOUNT g)
       then Ok (Some (true, Some amount))
       else Ok None)
      [ValueError; TypeError]
      (Ok None)
  else Ok None.

(** The loop [for field in refund_fields], then the final [return]. *)
Fixpoint for_field_in (g : globals) (data : value) (fields : list string)
  : result (bool * option float) :=
  match fields with
  | [] => Ok (false, None)
  | field :: rest =>
      r <- refund_field_step g data field ;;
      match r with
      | Some out => Ok out
      | None => for_field_in g data rest
      end
  end.

Definition check_refund_amount (g : globals) (data : value)
  : result (bool * option float) :=
  for_field_in g data refund_fields.

(** ** [audit_request] *)

(** The JSON object handed to [jsonify], and the HTTP status next to it. *)
Definition body : Type := list (string * string).
Definition response : Type := (body * Z)%type.

Definition approved : body := [("status", "APPROVED")].
Definition blocked (reason : string) : body :=
  [("status", "BLOCKED"); ("reason", reason)].

Fixpoint field_of (name : string) (b : body) : option string :=
  match b with
  | [] => None
  | (k, v) :: rest => if String.eqb k name then Some v else field_of name rest
  end.

Definition invalid_json_reason : string :=
  "Invalid JSON payload or missing Content-Type header".

(** [f'Banned keyword detected: "{keyword}"']. *)
Definition keyword_reason (keyword : option string) : string :=
  "Banned keyword detected: "
    ++ String dquote
         (match keyword with Some k => k | None => "None" end
            ++ String dquote EmptyString).

(** [f'Refund amount ${amount:.2f} exceeds maximum of ${MAX_REFUND_AMOUNT}'];
    the format [.2f] applied to [None] raises [TypeError]. *)
Definition refund_reason (g : globals) (amount : option float) : result string :=
  match amount with
  | Some a =>
      Ok ("Refund amount $" ++ format_2f a ++ " exceeds maximum of $"
            ++ str_of_int (MAX_REFUND_AMOUNT g))
  | None => Raise TypeError
  end.

Definition is_none (v : value) : bool :=
  match v with
  | VNone => true
  | _ => false
  end.

(** [data] is what [request.get_json()] returned.  The function body after
    that call, step by step. *)
Definition audit_request (g : globals) (data : value) : result response :=
  if is_none data then Ok (blocked invalid_json_reason, 400)
  else
    let data_str := str data in
    let '(is_banned, keyword) := check_for_banned_keywords g data_str in
    if is_banned then Ok (blocked (keyword_reason keyword), 200)
    else
      out <- check_refund_amount g data ;;
      let '(is_blocked, amount) := out in
      if is_blocked then
        reason <- refund_reason g amount ;;
        Ok (blocked reason, 200)
      else Ok (approved, 200).

(** ** The route, with its [try] *)

(** How [request.get_json()] ends: it returns the decoded body, or it
    raises, and the text [str(e)] of the exception is kept. *)
Inductive get_json_outcome : Type :=
| Returned (data : value)
| Raised (message : string).

(** The whole of [audit_request], lines 141 to 186: an exception of
    [get_json()] is answered by the [except Exception] branch; after a
    return the steps are those of [audit_request] above. *)
Definition audit_route (g : globals) (request : get_json_outcome)
  : result response :=
  match request with
  | Raised message => Ok (blocked ("JSON parsing error: " ++ message), 400)
  | Returned data => audit_request g data
  end.

(** ** The engine as a program over the module state *)

(** The same three functions once more, this time as programs that run in
    the module state: each piece takes the state before it and gives its
    outcome with the state after it.  A module-level name is read where
    the source mentions it; an assignment would be an [assign]. *)
Module Stateful.

Definition M (A : Type) : Type := globals -> result A * globals.

Definition ret {A : Type} (a : A) : M A := fun s => (Ok a, s).

Definition seq {A B : Type} (c : M A) (k : A -> M B) : M B :=
  fun s =>
    match c s with
    | (Ok a, s') => k a s'
    | (Raise e, s') => (Raise e, s')
    end.

(** Reading a module-level name. *)
Definition load {A : Type} (name : globals -> A) : M A :=
  fun s => (Ok (name s), s).

(** Assigning to module-level names. *)
Definition assign (update : globals -> globals) : M unit :=
  fun s => (Ok tt, update s).

(** An operation of the runtime that touches no module-level name. *)
Definition lift {A : Type} (r : result A) : M A := fun s => (r, s).

Definition st_try_except {A : Type} (body : M A) (classes : list exn)
    (handler : M A) : M A :=
  fun s =>
    match body s with
    | (Ok a, s') => (Ok a, s')
    | (Raise e, s') =>
        if existsb (exn_eqb e) classes then handler s' else (Raise e, s')
    end.

Local Notation "x <~ c ;; k" := (seq c (fun x => k))
  (at level 61, c at next level, right associativity).

(** [check_for_banned_keywords]: [BANNED_KEYWORDS] is read when the loop
    starts. *)
Fixpoint st_for_keyword_in (keywords : list string) (data_lower : string)
  : M (bool * option string) :=
  match keywords with
  | [] => ret (false, None)
  | keyword :: rest =>
      if str_contains (lower keyword) data_lower
      then ret (true, Some keyword)
      else st_for_keyword_in rest data_lower
  end.

Definition st_check_for_banned_keywords (data_str : string)
  : M (bool * option string) :=
  let data_lower := lower data_str in
  keywords <~ load BANNED_KEYWORDS ;;
  st_for_keyword_in keywords data_lower.

(** [check_refund_amount]: [MAX_REFUND_AMOUNT] is read at the comparison,
    in every turn of the loop that gets there. *)
Definition st_refund_field_step (data : value) (field : string)
  : M (option (bool * option float)) :=
  present <~ lift (contains data field) ;;
  if present then
    st_try_except
      (item <~ lift (getitem data field) ;;
       amount <~ lift (py_float item) ;;
       limit <~ load MAX_REFUND_AMOUNT ;;
       if float_gt_int amount limit
       then ret (Some (true, Some amount))
       else ret None)
      [ValueError; TypeError]
      (ret None)
  else ret None.

Fixpoint st_for_field_in (data : value) (fields : list string)
  : M (bool * option float) :=
  match fields with
  | [] => ret (false, None)
  | field :: rest =>
      r <~ st_refund_field_step data field ;;
      match r with
      | Some out => ret out
      | None => st_for_field_in data rest
      end
  end.

Definition st_check_refund_amount (data : value) : M (bool * option float) :=
  st_for_field_in data refund_fields.

(** The refund reason: the amount is formatted first, then
    [MAX_REFUND_AMOUNT] is read. *)
Definition st_refund_reason (amount : option float) : M string :=
  match amount with
  | Some a =>
      limit <~ load MAX_REFUND_AMOUNT ;;
      ret ("Refund amount $" ++ format_2f a ++ " exceeds maximum of $"
             ++ str_of_int limit)
  | None => lift (Raise TypeError)
  end.

(** [audit_request], from the value [get_json()] returned. *)
Definition st_audit_request (data : value) : M response :=
  if is_none data then ret (blocked invalid_json_reason, 400)
  else
    let data_str := str data in
    scan <~ st_check_for_banned_keywords data_str ;;
    let '(is_banned, keyword) := scan in
    if is_banned then ret (blocked (keyword_reason keyword), 200)
    else
      out <~ st_check_refund_amount data ;;
      let '(is_blocked, amount) := out in
      if is_blocked then
        reason <~ st_refund_reason amount ;;
        ret (blocked reason, 200)
      else ret (approved, 200).

End Stateful.

(** ** The service across requests *)

(** Serving one request: the engine runs in the module state it finds; the
    state it leaves is the one the next request will see. *)
Definition handle (g : globals) (data : value) : globals * result response :=
  let '(r, g') := Stateful.st_audit_request data g in
  (g', r).

Fixpoint serve (g : globals) (requests : list value)
  : globals * list (result response) :=
  match requests with
  | [] => (g, [])
  | data :: rest =>
      let '(g1, r) := handle g data in
      let '(g2, rs) := serve g1 rest in
      (g2, r :: rs)
  end.

(* ===================================================================== *)
(** * Vocabulary of the properties                                        *)
(* ===================================================================== *)

(** The phrase occurs in the serialized payload, whatever the case. *)
Definition phrase_in (keyword : string) (data : value) : bool :=
  str_contains (lower keyword) (lower (str data)).

(** The payload is a mapping whose [field] holds a value that [float]
    turns into the amount [a], and [a] is above the limit. *)
Definition exceeds_limit (g : globals) (data : value) (field : string)
    (a : float) : Prop :=
  exists entries v,
    data = VDict entries /\ lookup field entries = Some v /\
    py_float v = Ok a /\ float_gt_int a (MAX_REFUND_AMOUNT g) = true.

(** No candidate field of the mapping holds an int too large for a float. *)
Definition converts (entries : list (string * value)) : Prop :=
  forall field v,
    In field refund_fields -> lookup field entries = Some v ->
    py_float v <> Raise OverflowError.

Definition is_container (data : value) : bool :=
  match data with
  | VDict _ | VList _ | VStr _ => true
  | _ => false
  end.

(** The rational number a finite float stands for. *)
Definition float_value (f : float) : option Q :=
  match f with
  | S754_zero _ => Some (inject_Z 0)
  | S754_finite s m e =>
      Some (if 0 <=? e then inject_Z (cond_Zopp s (Zpos m) * 2 ^ e)
            else Qmake (cond_Zopp s (Zpos m)) (Z.to_pos (2 ^ (- e))))
  | S754_infinity _ | S754_nan => None
  end.

(** The payloads of the scenarios. *)
Definition scenario_A : value :=
  VDict [("user", VStr "john_doe"); ("action", VStr "view_profile");
         ("refund", VInt 50)].
Definition scenario_B : value :=
  VDict [("query", VStr "DROP TABLE users"); ("user", VStr "hacker")].
Definition scenario_C : value :=
  VDict [("customer", VStr "alice"); ("refund_amount", VInt 750);
         ("reason", VStr "defective")].
Definition scenario_D : value :=
  VDict [("customer_message", VStr "I am angry about this service");
         ("ticket_id", VInt 123)].
Definition scenario_E : value :=
  VDict [("refund_amount", VStr "not_a_number"); ("refund", VInt 600)].

(** An earlier alias within the limit, a later one above it. *)
Definition within_then_over : value :=
  VDict [("refund_amount", VInt 100); ("refund", VInt 600)].

(** A banned phrase together with an amount above the limit. *)
Definition angry_and_over : value :=
  VDict [("note", VStr "I am ANGRY"); ("refund", VInt 600)].

(** The first alias exactly at the limit, the last one above it. *)
Definition at_limit_then_over : value :=
  VDict [("refund_amount", VInt 500); ("amount", VStr "750.5")].

(** An int that no float can hold. *)
Definition huge_refund : value := VDict [("refund", VInt (10 ^ 400))].

(** ** Vocabulary of the further properties *)

(** A number of JSON as Python holds it: [bool], [int] or [float]. *)
Definition is_number (data : value) : bool :=
  match data with
  | VBool _ | VInt _ | VFloat _ => true
  | _ => false
  end.

(** A character that [repr] writes unchanged between either kind of quotes. *)
Definition plain (c : ascii) : bool :=
  is_printable c && negb (Ascii.eqb c squote) && negb (Ascii.eqb c dquote)
    && negb (Ascii.eqb c backslash).

Fixpoint all_plain (s : string) : bool :=
  match s with
  | EmptyString => true
  | String c t => plain c && all_plain t
  end.

(** [s] is a string of the payload tree: the payload itself, a key of a
    mapping or a string value, at any depth. *)
Inductive text_in (s : string) : value -> Prop :=
| text_here : text_in s (VStr s)
| text_item (items : list value) (v : value) :
    In v items -> text_in s v -> text_in s (VList items)
| text_key (entries : list (string * value)) (v : value) :
    In (s, v) entries -> text_in s (VDict entries)
| text_value (entries : list (string * value)) (k : string) (v : value) :
    In (k, v) entries -> text_in s v -> text_in s (VDict entries).

(** A tree with a banned phrase three levels down, in capitals. *)
Definition nested_angry : value :=
  VDict [("ticket", VList [VInt 7; VDict [("note", VStr "So ANGRY!")]])].

(* ===================================================================== *)
(** * The launcher: [start_system.py]                                     *)
(* ===================================================================== *)

Module StartSystem.

(** What the function does to the outside: a line printed, a command run. *)
Inductive event : Type :=
| Print (text : string)
| Run (argv : list string).

(** How a call of [subprocess.run] ends: with the text the command wrote,
    or with an exception, of which the message [str(e)] is kept. *)
Inductive run_outcome : Type :=
| Completed (stdout : string)
| Failed (message : string).

(** The operating system, as far as the function looks at it. *)
Definition system : Type := list string -> run_outcome.

(** White space of [str.split()]: the code points below U+0100 for which
    [str.isspace] holds. *)
Definition is_space (c : ascii) : bool :=
  let n := code c in
  ((9 <=? n) && (n <=? 13)) || ((28 <=? n) && (n <=? 32))
    || (n =? 133) || (n =? 160).

(** Line boundaries of [str.splitlines()] below U+0100. *)
Definition is_linebreak (c : ascii) : bool :=
  let n := code c in
  ((10 <=? n) && (n <=? 13)) || ((28 <=? n) && (n <=? 30)) || (n =? 133).

Definition snoc (s : string) (c : ascii) : string := s ++ String c EmptyString.

(** [s.split()]: the maximal runs of characters that are not white space. *)
Fixpoint split_from (s cur : string) : list string :=
  match s with
  | EmptyString => match cur with EmptyString => [] | _ => [cur] end
  | String c t =>
      if is_space c then
        match cur with
        | EmptyString => split_from t EmptyString
        | _ => cur :: split_from t EmptyString
        end
      else split_from t (snoc cur c)
  end.

Definition split (s : string) : list string := split_from s EmptyString.

(** [s.splitlines()]: CR LF is one boundary; no empty line at the end. *)
Fixpoint splitlines_from (s cur : string) (after_cr : bool) : list string :=
  match s with
  | EmptyString => match cur with EmptyString => [] | _ => [cur] end
  | String c t =>
      if (code c =? 10) && after_cr then splitlines_from t cur false
      else if is_linebreak c then
        cur :: splitlines_from t EmptyString (code c =? 13)
      else splitlines_from t (snoc cur c) false
  end.

Definition splitlines (s : string) : list string :=
  splitlines_from s EmptyString false.

(** [parts[-1]]; [None] stands for the [IndexError] of an empty list. *)
Fixpoint last_item (parts : list string) : option string :=
  match parts with
  | [] => None
  | [x] => Some x
  | _ :: rest => last_item rest
  end.

Definition netstat : list string := ["netstat"; "-ano"].

Definition taskkill (pid : string) : list string :=
  ["taskkill"; "/F"; "/PID"; pid].

Definition checking_line (port : Z) : event :=
  Print ("Checking for process on port " ++ str_of_int port ++ "...").

Definition killing_line (pid : string) (port : Z) : event :=
  Print ("Killing process with PID " ++ pid ++ " on port "
           ++ str_of_int port ++ "...").

Definition error_line (port : Z) (message : string) : event :=
  Print ("Error killing process on port " ++ str_of_int port ++ ": "
           ++ message).

(** [f":{port}" in line and "LISTENING" in line]. *)
Definition listens_on (port : Z) (line : string) : bool :=
  str_contains (":" ++ str_of_int port) line && str_contains "LISTENING" line.

(** The loop [for line in lines]; it ends at the first line that matches.
    An exception inside it lands in [except Exception], which prints. *)
Fixpoint for_line_in (os : system) (port : Z) (lines : list string)
  : list event :=
  match lines with
  | [] => []
  | line :: rest =>
      if listens_on port line then
        match last_item (split line) with
        | None => [error_line port "list index out of range"]
        | Some pid =>
            killing_line pid port
              :: Run (taskkill pid)
              :: match os (taskkill pid) with
                 | Completed _ => []
                 | Failed message => [error_line port message]
                 end
        end
      else for_line_in os port rest
  end.

Definition kill_process_on_port (os : system) (port : Z) : list event :=
  checking_line port
    :: Run netstat
    :: match os netstat with
       | Completed stdout => for_line_in os port (splitlines stdout)
       | Failed message => [error_line port message]
       end.

(** The commands of a trace that end a process. *)
Definition is_kill (e : event) : bool :=
  match e with
  | Run (command :: _) => String.eqb command "taskkill"
  | _ => false
  end.

(** A field of a line: not empty, and free of white space. *)
Definition is_field (p : string) : Prop :=
  p <> EmptyString /\
  forall c, In c (list_ascii_of_string p) -> is_space c = false.

(** Two lines of [netstat -ano] as Windows prints them. *)
Definition sample_netstat : string :=
  "  TCP    0.0.0.0:8000    0.0.0.0:0    LISTENING    4321"
    ++ String (chr 10)
         "  TCP    0.0.0.0:5000    0.0.0.0:0    LISTENING    1234"
    ++ String (chr 10)
         "  TCP    127.0.0.1:5000  0.0.0.0:0    LISTENING    5678".

Definition sample_system : system :=
  fun argv =>
    match argv with
    | [_; "-ano"] => Completed sample_netstat
    | _ => Completed EmptyString
    end.

End StartSystem.

(* ===================================================================== *)
(** * Substring search                                                    *)
(* ===================================================================== *)

Lemma starts_with_spec (sub s : string) :
  starts_with sub s = true <-> exists b, s = sub ++ b.
Proof.
  revert s. induction sub as [|a sub IH]; intros s; simpl.
  - split; [intros _; now exists s | reflexivity].
  - destruct s as [|c s]; simpl.
    + split; [discriminate | intros [b Hb]; discriminate].
    + rewrite andb_true_iff, Ascii.eqb_eq, IH. split.
      * intros [-> [b ->]]. now exists b.
      * intros [b Hb]. injection Hb as -> ->. split; [reflexivity | now exists b].
Qed.

Lemma str_contains_spec (sub s : string) :
  str_contains sub s = true <-> exists a b, s = a ++ sub ++ b.
Proof.
  induction s as [|c s IH].
  - simpl. rewrite orb_false_r, starts_with_spec. split.
    + intros [b Hb]. now exists EmptyString, b.
    + intros [a [b Hab]]. destruct a as [|x a]; [now exists b | discriminate].
  - cbn [str_contains]. rewrite orb_true_iff, starts_with_spec, IH. split.
    + intros [[b Hb] | [a [b Hab]]].
      * now exists EmptyString, b.
      * exists (String c a), b. simpl. now rewrite Hab.
    + intros [a [b Hab]]. destruct a as [|x a].
      * left. now exists b.
      * right. simpl in Hab. injection Hab as _ ->. now exists a, b.
Qed.

(* ===================================================================== *)
(** * The keyword scanner                                                 *)
(* ===================================================================== *)

Lemma for_keyword_in_miss (keywords : list string) (data_lower : string) :
  (forall k, In k keywords -> str_contains (lower k) data_lower = false) ->
  for_keyword_in keywords data_lower = (false, None).
Proof.
  induction keywords as [|k rest IH]; intros Hmiss; simpl.
  - reflexivity.
  - rewrite (Hmiss k (or_introl eq_refl)). apply IH.
    intros k' Hk'. apply Hmiss. now right.
Qed.

Lemma for_keyword_in_first (pre post : list string) (kw data_lower : string) :
  (forall k, In k pre -> str_contains (lower k) data_lower = false) ->
  str_contains (lower kw) data_lower = true ->
  for_keyword_in (pre ++ kw :: post) data_lower = (true, Some kw).
Proof.
  induction pre as [|k pre IH]; intros Hmiss Hhit; simpl.
  - now rewrite Hhit.
  - rewrite (Hmiss k (or_introl eq_refl)). apply IH; [|exact Hhit].
    intros k' Hk'. apply Hmiss. now right.
Qed.

(** Among the phrases that occur, one is the earliest of the list. *)
Lemma earliest_hit (keywords : list string) (data_lower : string) :
  (exists k, In k keywords /\ str_contains (lower k) data_lower = true) ->
  exists pre kw post,
    keywords = (pre ++ kw :: post)%list /\
    str_contains (lower kw) data_lower = true /\
    (forall k, In k pre -> str_contains (lower k) data_lower = false).
Proof.
  induction keywords as [|k rest IH]; intros [k0 [Hin Hhit]].
  - destruct Hin.
  - destruct (str_contains (lower k) data_lower) eqn:Hk.
    + exists [], k, rest. repeat split; [exact Hk | intros ? []].
    + destruct Hin as [-> | Hin]; [congruence|].
      destruct IH as [pre [kw [post [-> [Hkw Hpre]]]]]; [now exists k0|].
      exists (k :: pre), kw, post. repeat split; [exact Hkw|].
      intros k' [<- | Hk']; [exact Hk | now apply Hpre].
Qed.

Lemma audit_request_banned (g : globals) (data : value) (kw : string) :
  is_none data = false ->
  check_for_banned_keywords g (str data) = (true, Some kw) ->
  audit_request g data = Ok (blocked (keyword_reason (Some kw)), 200).
Proof.
  intros Hnone Hscan. unfold audit_request. now rewrite Hnone, Hscan.
Qed.

Lemma audit_request_clean (g : globals) (data : value) :
  is_none data = false ->
  check_for_banned_keywords g (str data) = (false, None) ->
  audit_request g data =
    (out <- check_refund_amount g data ;;
     if fst out then
       reason <- refund_reason g (snd out) ;;
       Ok (blocked reason, 200)
     else Ok (approved, 200)).
Proof.
  intros Hnone Hscan. unfold audit_request. rewrite Hnone, Hscan.
  destruct (check_refund_amount g data) as [[b a]|e]; reflexivity.
Qed.

(** The module's phrases do not occur in the text of [None]. *)
Lemma none_has_no_banned_phrase (k : string) :
  In k (BANNED_KEYWORDS module_globals) -> phrase_in k VNone = false.
Proof.
  simpl. intros H.
  repeat (destruct H as [<- | H]; [reflexivity|]). destruct H.
Qed.

(* ===================================================================== *)
(** * The rule evaluator                                                  *)
(* ===================================================================== *)

(** ** What [float] can raise *)

Lemma float_of_int_raises (z : Z) (e : exn) :
  float_of_int z = Raise e -> e = OverflowError.
Proof.
  unfold float_of_int. destruct (nearest_of_Z z); intros H;
    try discriminate H. now injection H.
Qed.

Lemma float_of_str_raises (s : string) (e : exn) :
  float_of_str s = Raise e -> e = ValueError.
Proof.
  unfold float_of_str.
  destruct (drop_underscores _ _) as [s1|]; [|intros H; now injection H].
  destruct (take_sign s1) as [neg s2].
  destruct (parse_decimal neg s2); [discriminate|].
  destruct (parse_inf_or_nan neg s2); [discriminate|].
  intros H; now injection H.
Qed.

Lemma py_float_raises (v : value) (e : exn) :
  py_float v = Raise e ->
  e = TypeError \/ e = ValueError \/ e = OverflowError.
Proof.
  destruct v; simpl; intros H.
  - left. now injection H.
  - right; right. eapply float_of_int_raises, H.
  - right; right. eapply float_of_int_raises, H.
  - discriminate H.
  - right; left. eapply float_of_str_raises, H.
  - left. now injection H.
  - left. now injection H.
Qed.

(** ** One candidate field of a mapping *)

Section MappingField.
Variable g : globals.
Variable entries : list (string * value).
Variable field : string.

Lemma step_absent :
  lookup field entries = None ->
  refund_field_step g (VDict entries) field = Ok None.
Proof. intros H. unfold refund_field_step. simpl. now rewrite H. Qed.

Lemma step_over (v : value) (a : float) :
  lookup field entries = Some v -> py_float v = Ok a ->
  float_gt_int a (MAX_REFUND_AMOUNT g) = true ->
  refund_field_step g (VDict entries) field = Ok (Some (true, Some a)).
Proof.
  intros H Hf Hgt. unfold refund_field_step. simpl. rewrite H. simpl.
  rewrite Hf. simpl. now rewrite Hgt.
Qed.

Lemma step_within (v : value) (a : float) :
  lookup field entries = Some v -> py_float v = Ok a ->
  float_gt_int a (MAX_REFUND_AMOUNT g) = false ->
  refund_field_step g (VDict entries) field = Ok None.
Proof.
  intros H Hf Hgt. unfold refund_field_step. simpl. rewrite H. simpl.
  rewrite Hf. simpl. now rewrite Hgt.
Qed.

Lemma step_skip (v : value) :
  lookup field entries = Some v ->
  py_float v = Raise ValueError \/ py_float v = Raise TypeError ->
  refund_field_step g (VDict entries) field = Ok None.
Proof.
  intros H [Hf | Hf]; unfold refund_field_step; simpl; rewrite H; simpl;
    now rewrite Hf.
Qed.

Lemma step_overflow (v : value) :
  lookup field entries = Some v -> py_float v = Raise OverflowError ->
  refund_field_step g (VDict entries) field = Raise OverflowError.
Proof.
  intros H Hf. unfold refund_field_step. simpl. rewrite H. simpl.
  now rewrite Hf.
Qed.

(** A field that converts and is not above the limit lets the loop go on. *)
Lemma step_passes :
  (forall v, lookup field entries = Some v ->
             py_float v <> Raise OverflowError) ->
  (forall a, ~ exceeds_limit g (VDict entries) field a) ->
  refund_field_step g (VDict entries) field = Ok None.
Proof.
  intros Hconv Hlim.
  destruct (lookup field entries) as [v|] eqn:Hl; [|now apply step_absent].
  destruct (py_float v) as [a|e] eqn:Hf.
  - destruct (float_gt_int a (MAX_REFUND_AMOUNT g)) eqn:Hgt.
    + exfalso. apply (Hlim a). now exists entries, v.
    + now apply (step_within v a).
  - destruct (py_float_raises v e Hf) as [-> | [-> | ->]].
    + apply (step_skip v); auto.
    + apply (step_skip v); auto.
    + exfalso. now apply (Hconv v).
Qed.
End MappingField.

(** ** The loop over the candidate fields *)

Lemma for_field_in_continue (g : globals) (data : value) (field : string)
    (rest : list string) :
  refund_field_step g data field = Ok None ->
  for_field_in g data (field :: rest) = for_field_in g data rest.
Proof. intros H. simpl. now rewrite H. Qed.

Lemma for_field_in_return (g : globals) (data : value) (field : string)
    (rest : list string) (out : bool * option float) :
  refund_field_step g data field = Ok (Some out) ->
  for_field_in g data (field :: rest) = Ok out.
Proof. intros H. simpl. now rewrite H. Qed.

(** A turn of the loop returns only for an amount above the limit. *)
Lemma step_return_inv (g : globals) (data : value) (field : string)
    (out : bool * option float) :
  refund_field_step g data field = Ok (Some out) ->
  exists a, out = (true, Some a) /\ exceeds_limit g data field a.
Proof.
  unfold refund_field_step. destruct data as [| | | |s|items|entries]; simpl;
    try discriminate.
  - destruct (str_contains field s); discriminate.
  - destruct (existsb (eq_str field) items); discriminate.
  - destruct (lookup field entries) as [v|] eqn:Hl; simpl; [|discriminate].
    destruct (py_float v) as [a|e] eqn:Hf; simpl.
    + destruct (float_gt_int a (MAX_REFUND_AMOUNT g)) eqn:Hgt; [|discriminate].
      intros H. injection H as <-. exists a. split; [reflexivity|].
      now exists entries, v.
    + destruct e; discriminate.
Qed.

Lemma for_field_in_return_inv (g : globals) (data : value)
    (fields : list string) (b : bool) (a : float) :
  for_field_in g data fields = Ok (b, Some a) ->
  b = true /\ exists field, In field fields /\ exceeds_limit g data field a.
Proof.
  induction fields as [|field rest IH]; simpl; [discriminate|].
  destruct (refund_field_step g data field) as [[out|]|e] eqn:Hs; simpl.
  - intros H. injection H as ->.
    destruct (step_return_inv _ _ _ _ Hs) as [a' [Heq Hex]].
    injection Heq as -> <-. split; [reflexivity|]. exists field. auto.
  - intros H. destruct (IH H) as [Hb [f [Hin Hex]]]. split; [exact Hb|].
    exists f. auto.
  - discriminate.
Qed.

Lemma mapping_no_violation (g : globals) (entries : list (string * value))
    (fields : list string) :
  (forall field v, In field fields -> lookup field entries = Some v ->
                   py_float v <> Raise OverflowError) ->
  (forall field a, In field fields ->
                   ~ exceeds_limit g (VDict entries) field a) ->
  for_field_in g (VDict entries) fields = Ok (false, None).
Proof.
  induction fields as [|field rest IH]; intros Hconv Hlim; [reflexivity|].
  rewrite for_field_in_continue.
  - apply IH; intros f x Hin; [apply Hconv | apply Hlim]; now right.
  - apply step_passes; intros x; [apply Hconv | apply Hlim]; now left.
Qed.

Lemma mapping_first_violation (g : globals) (entries : list (string * value))
    (pre post : list string) (field : string) (a : float) :
  (forall f v, In f pre -> lookup f entries = Some v ->
               py_float v <> Raise OverflowError) ->
  (forall f a', In f pre -> ~ exceeds_limit g (VDict entries) f a') ->
  exceeds_limit g (VDict entries) field a ->
  for_field_in g (VDict entries) (pre ++ field :: post) = Ok (true, Some a).
Proof.
  induction pre as [|f pre IH]; intros Hconv Hlim Hex.
  - destruct Hex as [entries' [v [Heq [Hl [Hf Hgt]]]]]. injection Heq as <-.
    apply for_field_in_return. now apply (step_over g entries field v a).
  - simpl app. rewrite for_field_in_continue.
    + apply IH; [| |exact Hex]; intros f' x Hin;
        [apply Hconv | apply Hlim]; now right.
    + apply step_passes; intros x; [apply Hconv | apply Hlim]; now left.
Qed.

(** ** Payloads that are not mappings *)

Lemma step_string (g : globals) (s field : string) :
  refund_field_step g (VStr s) field = Ok None.
Proof.
  unfold refund_field_step. simpl. now destruct (str_contains field s).
Qed.

Lemma step_list (g : globals) (items : list value) (field : string) :
  refund_field_step g (VList items) field = Ok None.
Proof.
  unfold refund_field_step. simpl. now destruct (existsb (eq_str field) items).
Qed.

Lemma for_field_in_all_continue (g : globals) (data : value)
    (fields : list string) :
  (forall field, refund_field_step g data field = Ok None) ->
  for_field_in g data fields = Ok (false, None).
Proof.
  intros H. induction fields as [|field rest IH]; [reflexivity|].
  now rewrite for_field_in_continue.
Qed.

(* ===================================================================== *)
(** * Properties of the audit                                             *)
(* ===================================================================== *)

(** ** Totality *)

(** C1.  The audit is claimed to return APPROVED or BLOCKED for every JSON
    value and never to raise.  The code raises on three well-formed
    payloads: the top-level number [5] and the top-level boolean [true]
    make the membership test [field in data], which stands outside the
    [try], raise [TypeError]; a mapping whose [refund] is the integer
    [10^400] makes [float] raise [OverflowError], which the [except]
    clause does not list. *)
Theorem audit_request_raises :
  audit_request module_globals (VInt 5) = Raise TypeError /\
  audit_request module_globals (VBool true) = Raise TypeError /\
  audit_request module_globals huge_refund = Raise OverflowError.
Proof. repeat split; vm_compute; reflexivity. Qed.

(** ** Field-name aliases *)

(** C2, as stated, fails: with [refund_amount] holding 100 (a number within
    the limit) and [refund] holding 600, the evaluator does examine the
    later alias and reports a violation for 600. *)
Lemma within_limit_alias_does_not_stop :
  lookup "refund_amount" [("refund_amount", VInt 100); ("refund", VInt 600)]
    = Some (VInt 100) /\
  (exists a, py_float (VInt 100) = Ok a /\
             float_gt_int a (MAX_REFUND_AMOUNT module_globals) = false) /\
  check_refund_amount module_globals within_then_over
    = Ok (true, Some (nearest_of_Z 600)) /\
  check_refund_amount module_globals within_then_over <> Ok (false, None).
Proof.
  split; [reflexivity|]. split.
  - exists (nearest_of_Z 100). split; vm_compute; reflexivity.
  - split; [vm_compute; reflexivity | vm_compute; discriminate].
Qed.

(** C2, amended.  For a mapping payload, a candidate field whose value
    coerces to a number within the limit does not end the evaluation: the
    loop goes on with the aliases that follow.  When every earlier alias
    is absent, not numeric or within the limit (none holding an int too
    large for a float) and a later alias holds a number above the limit,
    the evaluator reports a violation with the amount of that later
    alias. *)
Theorem within_limit_alias_continues :
  forall (g : globals) (entries : list (string * value)),
    (forall field rest v a,
        lookup field entries = Some v -> py_float v = Ok a ->
        float_gt_int a (MAX_REFUND_AMOUNT g) = false ->
        for_field_in g (VDict entries) (field :: rest)
          = for_field_in g (VDict entries) rest) /\
    (forall pre later post a,
        refund_fields = (pre ++ later :: post)%list ->
        (forall f v, In f pre -> lookup f entries = Some v ->
                     py_float v <> Raise OverflowError) ->
        (forall f a', In f pre -> ~ exceeds_limit g (VDict entries) f a') ->
        exceeds_limit g (VDict entries) later a ->
        check_refund_amount g (VDict entries) = Ok (true, Some a)).
Proof.
  intros g entries. split.
  - intros field rest v a Hl Hf Hgt. apply for_field_in_continue.
    now apply (step_within g entries field v a).
  - intros pre later post a Hsplit Hconv Hlim Hex.
    unfold check_refund_amount. rewrite Hsplit.
    now apply mapping_first_violation.
Qed.

Lemma within_limit_alias_continues_witness :
  check_refund_amount module_globals within_then_over
    = Ok (true, Some (nearest_of_Z 600)).
Proof.
  refine (proj2 (within_limit_alias_continues module_globals
                   [("refund_amount", VInt 100); ("refund", VInt 600)])
            ["refund_amount"] "refund" ["amount"] (nearest_of_Z 600)
            eq_refl _ _ _).
  - intros f v [<- | []] Hl. vm_compute in Hl. injection Hl as <-.
    vm_compute. discriminate.
  - intros f a' [<- | []] [es [v [Heq [Hl [Hf Hgt]]]]].
    injection Heq as <-. vm_compute in Hl. injection Hl as <-.
    vm_compute in Hf. injection Hf as <-. vm_compute in Hgt. discriminate.
  - exists [("refund_amount", VInt 100); ("refund", VInt 600)], (VInt 600).
    repeat split; vm_compute; reflexivity.
Defined.

(** ** Banned phrases *)

(** C3.  When a banned phrase occurs in the serialized payload, whatever the
    case of the letters, the audit returns BLOCKED with the reason
    [Banned keyword detected: "<phrase>"], where the phrase is the earliest
    one of the policy list that occurs; the phrases listed after it play no
    part: the scan gives the same answer whatever follows the first hit. *)
Theorem banned_phrase_blocks_with_first_match :
  forall data : value,
    (exists k, In k (BANNED_KEYWORDS module_globals) /\
               phrase_in k data = true) ->
    exists pre kw post,
      BANNED_KEYWORDS module_globals = (pre ++ kw :: post)%list /\
      phrase_in kw data = true /\
      (forall k, In k pre -> phrase_in k data = false) /\
      audit_request module_globals data
        = Ok (blocked ("Banned keyword detected: "
                         ++ String dquote (kw ++ String dquote "")), 200) /\
      (forall post',
          check_for_banned_keywords
            {| BANNED_KEYWORDS := pre ++ kw :: post';
               MAX_REFUND_AMOUNT := 500 |} (str data)
            = (true, Some kw)).
Proof.
  intros data Hex.
  assert (Hnone : is_none data = false).
  { destruct data; try reflexivity. destruct Hex as [k [Hin Hk]].
    rewrite (none_has_no_banned_phrase k Hin) in Hk. discriminate. }
  destruct (earliest_hit _ (lower (str data)) Hex)
    as [pre [kw [post [Hsplit [Hhit Hmiss]]]]].
  exists pre, kw, post. repeat split; try assumption.
  - apply (audit_request_banned module_globals data kw Hnone).
    unfold check_for_banned_keywords. rewrite Hsplit.
    now apply for_keyword_in_first.
  - intros post'. unfold check_for_banned_keywords. simpl.
    now apply for_keyword_in_first.
Qed.

Lemma banned_phrase_blocks_witness :
  exists pre kw post,
    BANNED_KEYWORDS module_globals = (pre ++ kw :: post)%list /\
    phrase_in kw scenario_B = true /\
    (forall k, In k pre -> phrase_in k scenario_B = false) /\
    audit_request module_globals scenario_B
      = Ok (blocked ("Banned keyword detected: "
                       ++ String dquote (kw ++ String dquote "")), 200) /\
    (forall post',
        check_for_banned_keywords
          {| BANNED_KEYWORDS := pre ++ kw :: post';
             MAX_REFUND_AMOUNT := 500 |} (str scenario_B)
          = (true, Some kw)).
Proof.
  apply (banned_phrase_blocks_with_first_match scenario_B).
  exists "DROP TABLE". split; [left; reflexivity | vm_compute; reflexivity].
Defined.

(** C4.  When the payload holds a banned phrase and also a refund-like
    field with a number above 500, the audit returns BLOCKED with the
    banned-keyword reason, and with the refund reason for no amount. *)
Theorem keyword_reason_has_priority :
  forall (data : value) (field : string) (a : float),
    (exists k, In k (BANNED_KEYWORDS module_globals) /\
               phrase_in k data = true) ->
    In field refund_fields ->
    exceeds_limit module_globals data field a ->
    (exists kw,
        In kw (BANNED_KEYWORDS module_globals) /\
        phrase_in kw data = true /\
        audit_request module_globals data
          = Ok (blocked ("Banned keyword detected: "
                           ++ String dquote (kw ++ String dquote "")), 200)) /\
    (forall a' : float,
        audit_request module_globals data
          <> Ok (blocked ("Refund amount $" ++ format_2f a'
                            ++ " exceeds maximum of $500"), 200)).
Proof.
  intros data field a Hex _ Hover.
  assert (Hnone : is_none data = false).
  { destruct Hover as [es [v [-> _]]]. reflexivity. }
  destruct (earliest_hit _ (lower (str data)) Hex)
    as [pre [kw [post [Hsplit [Hhit Hmiss]]]]].
  assert (Haudit : audit_request module_globals data
                   = Ok (blocked (keyword_reason (Some kw)), 200)).
  { apply (audit_request_banned module_globals data kw Hnone).
    unfold check_for_banned_keywords. rewrite Hsplit.
    now apply for_keyword_in_first. }
  split.
  - exists kw. repeat split; [|exact Hhit|exact Haudit].
    rewrite Hsplit. apply in_elt.
  - intros a'. rewrite Haudit. discriminate.
Qed.

Lemma keyword_reason_has_priority_witness :
  (exists kw,
      In kw (BANNED_KEYWORDS module_globals) /\
      phrase_in kw angry_and_over = true /\
      audit_request module_globals angry_and_over
        = Ok (blocked ("Banned keyword detected: "
                         ++ String dquote (kw ++ String dquote "")), 200)) /\
  (forall a' : float,
      audit_request module_globals angry_and_over
        <> Ok (blocked ("Refund amount $" ++ format_2f a'
                          ++ " exceeds maximum of $500"), 200)).
Proof.
  apply (keyword_reason_has_priority angry_and_over "refund" (nearest_of_Z 600)).
  - exists "angry". split; [simpl; tauto | vm_compute; reflexivity].
  - simpl; tauto.
  - exists [("note", VStr "I am ANGRY"); ("refund", VInt 600)], (VInt 600).
    repeat split; vm_compute; reflexivity.
Defined.

(** ** The refund limit *)

Lemma float_gt_int_spec (f : float) (n : Z) (q : Q) :
  float_value f = Some q ->
  (float_gt_int f n = true <-> (inject_Z n < q)%Q).
Proof.
  destruct f as [s| | |s m e]; simpl; try discriminate.
  - intros H. injection H as <-. unfold Qlt. simpl. rewrite Z.gtb_ltb, Z.ltb_lt. lia.
  - intros H. injection H as <-. destruct (0 <=? e) eqn:He.
    + unfold Qlt. simpl. rewrite Z.gtb_ltb, Z.ltb_lt. lia.
    + unfold Qlt. simpl. rewrite Z.gtb_ltb, Z.ltb_lt.
      rewrite Z2Pos.id; [lia|]. apply Z.pow_pos_nonneg; lia.
Qed.

Lemma clean_scan (g : globals) (data : value) :
  (forall k, In k (BANNED_KEYWORDS g) -> phrase_in k data = false) ->
  check_for_banned_keywords g (str data) = (false, None).
Proof. intros H. unfold check_for_banned_keywords. now apply for_keyword_in_miss. Qed.

Lemma audit_request_refund (g : globals) (data : value) (a : float) :
  is_none data = false ->
  (forall k, In k (BANNED_KEYWORDS g) -> phrase_in k data = false) ->
  check_refund_amount g data = Ok (true, Some a) ->
  audit_request g data
    = Ok (blocked ("Refund amount $" ++ format_2f a ++ " exceeds maximum of $"
                     ++ str_of_int (MAX_REFUND_AMOUNT g)), 200).
Proof.
  intros Hnone Hclean Hcheck.
  rewrite (audit_request_clean g data Hnone (clean_scan g data Hclean)).
  now rewrite Hcheck.
Qed.

Lemma audit_request_approved (g : globals) (data : value) :
  is_none data = false ->
  (forall k, In k (BANNED_KEYWORDS g) -> phrase_in k data = false) ->
  check_refund_amount g data = Ok (false, None) ->
  audit_request g data = Ok (approved, 200).
Proof.
  intros Hnone Hclean Hcheck.
  rewrite (audit_request_clean g data Hnone (clean_scan g data Hclean)).
  now rewrite Hcheck.
Qed.

(** With no overflow among the fields, a violation is found as soon as one
    of them is above the limit. *)
Lemma mapping_some_violation (g : globals) (entries : list (string * value))
    (fields : list string) :
  (forall field v, In field fields -> lookup field entries = Some v ->
                   py_float v <> Raise OverflowError) ->
  (exists field a, In field fields /\ exceeds_limit g (VDict entries) field a) ->
  exists a, for_field_in g (VDict entries) fields = Ok (true, Some a).
Proof.
  induction fields as [|f rest IH]; intros Hconv [field [a [Hin Hex]]].
  - destruct Hin.
  - destruct (lookup f entries) as [v|] eqn:Hl.
    + destruct (py_float v) as [b|e] eqn:Hf.
      * destruct (float_gt_int b (MAX_REFUND_AMOUNT g)) eqn:Hgt.
        -- exists b. apply for_field_in_return. now apply (step_over g entries f v b).
        -- rewrite for_field_in_continue by now apply (step_within g entries f v b).
           apply IH; [intros f' x Hf'; apply Hconv; now right|].
           destruct Hin as [<- | Hin]; [|now exists field, a].
           destruct Hex as [es [v' [Heq [Hl' [Hf' Hgt']]]]]. injection Heq as <-.
           congruence.
      * assert (Hs : refund_field_step g (VDict entries) f = Ok None).
        { destruct (py_float_raises v e Hf) as [-> | [-> | ->]].
          - apply (step_skip g entries f v); auto.
          - apply (step_skip g entries f v); auto.
          - exfalso. apply (Hconv f v); auto. now left. }
        rewrite for_field_in_continue by exact Hs.
        apply IH; [intros f' x Hf'; apply Hconv; now right|].
        destruct Hin as [<- | Hin]; [|now exists field, a].
        destruct Hex as [es [v' [Heq [Hl' [Hf' Hgt']]]]]. injection Heq as <-.
        congruence.
    + rewrite for_field_in_continue by now apply step_absent.
      apply IH; [intros f' x Hf'; apply Hconv; now right|].
      destruct Hin as [<- | Hin]; [|now exists field, a].
      destruct Hex as [es [v' [Heq [Hl' _]]]]. injection Heq as <-. congruence.
Qed.

(** C5, as stated, fails: no banned phrase occurs, the candidate field
    [refund_amount] yields the usable amount 500, which is not greater than
    500, and yet a violation is reported (for the 750.5 of [amount]). *)
Lemma usable_amount_within_limit_yet_violation :
  (forall k, In k (BANNED_KEYWORDS module_globals) ->
             phrase_in k at_limit_then_over = false) /\
  lookup "refund_amount"
    [("refund_amount", VInt 500); ("amount", VStr "750.5")] = Some (VInt 500) /\
  py_float (VInt 500) = Ok (nearest_of_Z 500) /\
  float_gt_int (nearest_of_Z 500) 500 = false /\
  audit_request module_globals at_limit_then_over
    = Ok (blocked "Refund amount $750.50 exceeds maximum of $500", 200) /\
  ~ ((exists a, check_refund_amount module_globals at_limit_then_over
                = Ok (true, Some a))
     <-> float_gt_int (nearest_of_Z 500) 500 = true).
Proof.
  split.
  { simpl. intros k H.
    repeat (destruct H as [<- | H]; [vm_compute; reflexivity|]). destruct H. }
  repeat split; try (vm_compute; reflexivity).
  intros [H _]. assert (Hgt : float_gt_int (nearest_of_Z 500) 500 = true).
  { apply H. eexists. vm_compute. reflexivity. }
  vm_compute in Hgt. discriminate.
Qed.

(** C5, amended.  For a mapping payload with no banned phrase in its
    serialized content and no candidate field holding an int too large for
    a float: a violation is reported if and only if some candidate field
    yields an amount above the limit; the amount reported is that of the
    first such field in the order [refund_amount], [refund], [amount];
    above the limit means strictly greater than 500, so an amount equal to
    500 never counts; and on a violation the audit returns BLOCKED with the
    reason [Refund amount $<amount with two decimals> exceeds maximum of
    $500]. *)
Theorem refund_violation_iff_some_amount_over_limit :
  forall entries : list (string * value),
    (forall k, In k (BANNED_KEYWORDS module_globals) ->
               phrase_in k (VDict entries) = false) ->
    converts entries ->
    ((exists a, check_refund_amount module_globals (VDict entries)
                = Ok (true, Some a))
     <-> (exists field a,
             In field refund_fields /\
             exceeds_limit module_globals (VDict entries) field a)) /\
    ((forall field a, In field refund_fields ->
                      ~ exceeds_limit module_globals (VDict entries) field a) ->
     check_refund_amount module_globals (VDict entries) = Ok (false, None)) /\
    (forall pre field post a,
        refund_fields = (pre ++ field :: post)%list ->
        (forall f a', In f pre ->
                      ~ exceeds_limit module_globals (VDict entries) f a') ->
        exceeds_limit module_globals (VDict entries) field a ->
        check_refund_amount module_globals (VDict entries) = Ok (true, Some a)) /\
    (forall a,
        check_refund_amount module_globals (VDict entries) = Ok (true, Some a) ->
        audit_request module_globals (VDict entries)
          = Ok (blocked ("Refund amount $" ++ format_2f a
                           ++ " exceeds maximum of $500"), 200)) /\
    (forall field a q,
        exceeds_limit module_globals (VDict entries) field a ->
        float_value a = Some q -> (inject_Z 500 < q)%Q) /\
    (forall field a q,
        float_value a = Some q -> (q <= inject_Z 500)%Q ->
        ~ exceeds_limit module_globals (VDict entries) field a).
Proof.
  intros entries Hclean Hconv. repeat split.
  - intros [a Ha]. unfold check_refund_amount in Ha.
    destruct (for_field_in_return_inv _ _ _ _ _ Ha) as [_ [field [Hin Hex]]].
    now exists field, a.
  - intros Hex. unfold check_refund_amount.
    apply mapping_some_violation; [|exact Hex].
    intros field v Hin Hl. now apply (Hconv field v).
  - intros Hlim. unfold check_refund_amount.
    apply mapping_no_violation; [|exact Hlim].
    intros field v Hin Hl. now apply (Hconv field v).
  - intros pre field post a Hsplit Hlim Hex.
    unfold check_refund_amount. rewrite Hsplit.
    apply mapping_first_violation; [|exact Hlim|exact Hex].
    intros f v Hin Hl. apply (Hconv f v); [|exact Hl].
    rewrite Hsplit. apply in_or_app. now left.
  - intros a Ha.
    apply (audit_request_refund module_globals (VDict entries) a eq_refl Hclean Ha).
  - intros field a q [es [v [_ [_ [_ Hgt]]]]] Hq.
    now apply (float_gt_int_spec a 500 q Hq).
  - intros field a q Hq Hle [es [v [_ [_ [_ Hgt]]]]].
    apply (float_gt_int_spec a 500 q Hq) in Hgt.
    apply (Qlt_not_le _ _ Hgt Hle).
Qed.

Lemma refund_violation_witness :
  audit_request module_globals scenario_C
    = Ok (blocked "Refund amount $750.00 exceeds maximum of $500", 200).
Proof.
  refine (proj1 (proj2 (proj2 (proj2
            (refund_violation_iff_some_amount_over_limit
               [("customer", VStr "alice"); ("refund_amount", VInt 750);
                ("reason", VStr "defective")] _ _))))
            (nearest_of_Z 750) _).
  - simpl. intros k H.
    repeat (destruct H as [<- | H]; [vm_compute; reflexivity|]). destruct H.
  - intros field v H Hl. simpl in H.
    repeat (destruct H as [<- | H];
            [vm_compute in Hl; try discriminate Hl; injection Hl as <-;
             vm_compute; discriminate|]).
    destruct H.
  - vm_compute. reflexivity.
Defined.

(** ** Approval *)

(** C6, as stated, fails.  The top-level [null] holds no banned phrase and
    no refund-like field, and the audit answers BLOCKED with status 400:
    the guard [if data is None] takes it for a missing payload.  The
    top-level number [5] holds neither, and the audit raises [TypeError]
    instead of answering. *)
Lemma clean_payload_not_always_approved :
  ((forall k, In k (BANNED_KEYWORDS module_globals) ->
              phrase_in k VNone = false) /\
   (forall field a, ~ exceeds_limit module_globals VNone field a) /\
   audit_request module_globals VNone = Ok (blocked invalid_json_reason, 400) /\
   audit_request module_globals VNone <> Ok (approved, 200)) /\
  ((forall k, In k (BANNED_KEYWORDS module_globals) ->
              phrase_in k (VInt 5) = false) /\
   (forall field a, ~ exceeds_limit module_globals (VInt 5) field a) /\
   audit_request module_globals (VInt 5) = Raise TypeError /\
   audit_request module_globals (VInt 5) <> Ok (approved, 200)).
Proof.
  split; repeat split; try (vm_compute; (reflexivity || discriminate)).
  - apply none_has_no_banned_phrase.
  - intros field a [es [v [Heq _]]]. discriminate.
  - simpl. intros k H.
    repeat (destruct H as [<- | H]; [vm_compute; reflexivity|]). destruct H.
  - intros field a [es [v [Heq _]]]. discriminate.
Qed.

(** C6, amended.  For every payload whose top level is a mapping, a string
    or a list, in which no banned phrase occurs in the serialized content,
    no refund-like field is above the limit and no candidate field holds an
    int too large for a float, the audit returns APPROVED, and the APPROVED
    answer has no reason field. *)
Theorem clean_payload_is_approved :
  forall data : value,
    is_container data = true ->
    (forall k, In k (BANNED_KEYWORDS module_globals) ->
               phrase_in k data = false) ->
    (forall field a, In field refund_fields ->
                     ~ exceeds_limit module_globals data field a) ->
    (forall entries, data = VDict entries -> converts entries) ->
    exists answer : body,
      audit_request module_globals data = Ok (answer, 200) /\
      field_of "status" answer = Some "APPROVED" /\
      field_of "reason" answer = None.
Proof.
  intros data Hcont Hclean Hlim Hconv.
  exists approved. split; [|split; reflexivity].
  assert (Hnone : is_none data = false) by (destruct data; easy).
  apply (audit_request_approved module_globals data Hnone Hclean).
  unfold check_refund_amount.
  destruct data as [| | | |s|items|entries]; try discriminate Hcont.
  - apply for_field_in_all_continue. intros field. apply step_string.
  - apply for_field_in_all_continue. intros field. apply step_list.
  - apply mapping_no_violation; [|exact Hlim].
    intros field v Hin Hl. now apply (Hconv entries eq_refl field v).
Qed.

Lemma clean_payload_is_approved_witness :
  exists answer : body,
    audit_request module_globals scenario_A = Ok (answer, 200) /\
    field_of "status" answer = Some "APPROVED" /\
    field_of "reason" answer = None.
Proof.
  apply (clean_payload_is_approved scenario_A).
  - reflexivity.
  - simpl. intros k H.
    repeat (destruct H as [<- | H]; [vm_compute; reflexivity|]). destruct H.
  - intros field a H [es [v [Heq [Hl [Hf Hgt]]]]]. injection Heq as <-.
    simpl in H.
    repeat (destruct H as [<- | H];
            [vm_compute in Hl; try discriminate Hl; injection Hl as <-;
             vm_compute in Hf; injection Hf as <-; vm_compute in Hgt;
             discriminate Hgt|]).
    destruct H.
  - intros entries Heq. injection Heq as <-. intros field v H Hl.
    simpl in H.
    repeat (destruct H as [<- | H];
            [vm_compute in Hl; try discriminate Hl; injection Hl as <-;
             vm_compute; discriminate|]).
    destruct H.
Defined.

(** ** Fields that are not numbers *)

(** C7.  In a mapping payload, a candidate field that is present but whose
    value [float] rejects ([ValueError] or [TypeError]: text that is not a
    number, [None], a list, a mapping) is passed over and the next
    candidate is tried.  For [{"refund_amount":"not_a_number","refund":600}]
    no banned phrase occurs and the audit returns BLOCKED through [refund],
    with a reason that mentions 600 and 500. *)
Theorem non_numeric_field_is_skipped :
  (forall (g : globals) (entries : list (string * value)) (field : string)
          (rest : list string) (v : value),
      lookup field entries = Some v ->
      py_float v = Raise ValueError \/ py_float v = Raise TypeError ->
      refund_field_step g (VDict entries) field = Ok None /\
      for_field_in g (VDict entries) (field :: rest)
        = for_field_in g (VDict entries) rest) /\
  py_float (VStr "not_a_number") = Raise ValueError /\
  py_float VNone = Raise TypeError /\
  (forall items, py_float (VList items) = Raise TypeError) /\
  (forall entries, py_float (VDict entries) = Raise TypeError) /\
  (forall k, In k (BANNED_KEYWORDS module_globals) ->
             phrase_in k scenario_E = false) /\
  check_refund_amount module_globals scenario_E
    = Ok (true, Some (nearest_of_Z 600)) /\
  audit_request module_globals scenario_E
    = Ok (blocked "Refund amount $600.00 exceeds maximum of $500", 200).
Proof.
  split.
  { intros g entries field rest v Hl Hf.
    assert (Hs := step_skip g entries field v Hl Hf).
    split; [exact Hs | now apply for_field_in_continue]. }
  repeat split; try (vm_compute; reflexivity).
  simpl. intros k H.
  repeat (destruct H as [<- | H]; [vm_compute; reflexivity|]). destruct H.
Qed.

Lemma non_numeric_field_is_skipped_witness :
  refund_field_step module_globals scenario_E "refund_amount" = Ok None /\
  for_field_in module_globals scenario_E ["refund_amount"; "refund"; "amount"]
    = for_field_in module_globals scenario_E ["refund"; "amount"].
Proof.
  apply (proj1 non_numeric_field_is_skipped module_globals
           [("refund_amount", VStr "not_a_number"); ("refund", VInt 600)]
           "refund_amount" ["refund"; "amount"] (VStr "not_a_number")).
  - reflexivity.
  - left. vm_compute. reflexivity.
Defined.

(** ** Payloads that are not mappings *)

(** C8.  The evaluator is claimed to report no violation, without error,
    for every payload that is not a mapping.  On a number, a boolean or
    [None] the code raises [TypeError] instead: the membership test
    [field in data] of the first turn of the loop stands outside the
    [try]. *)
Theorem check_refund_amount_raises_on_scalar :
  forall g : globals,
    (forall n, check_refund_amount g (VInt n) = Raise TypeError) /\
    (forall f, check_refund_amount g (VFloat f) = Raise TypeError) /\
    (forall b, check_refund_amount g (VBool b) = Raise TypeError) /\
    check_refund_amount g VNone = Raise TypeError.
Proof. intros g. repeat split. Qed.

(** C10.  For a payload that is a string or a list, the evaluator returns
    no violation and no amount, and does not raise, also when a candidate
    field name is a substring of the string or an element of the list:
    the membership test succeeds, the subscript raises [TypeError], and
    the [except] clause turns that into going on with the next field. *)
Theorem string_or_list_payload_no_violation :
  forall g : globals,
    (forall s, check_refund_amount g (VStr s) = Ok (false, None)) /\
    (forall items, check_refund_amount g (VList items) = Ok (false, None)) /\
    (forall s field, getitem (VStr s) field = Raise TypeError) /\
    (forall items field, getitem (VList items) field = Raise TypeError) /\
    contains (VStr "my refund") "refund" = Ok true /\
    contains (VList [VStr "refund"; VInt 600]) "refund" = Ok true /\
    check_refund_amount g (VStr "my refund") = Ok (false, None) /\
    check_refund_amount g (VList [VStr "refund"; VInt 600]) = Ok (false, None) /\
    (forall s field, refund_field_step g (VStr s) field = Ok None) /\
    (forall items field, refund_field_step g (VList items) field = Ok None).
Proof.
  intros g.
  assert (Hs : forall s, check_refund_amount g (VStr s) = Ok (false, None)).
  { intros s. apply for_field_in_all_continue. intros field. apply step_string. }
  assert (Hl : forall items, check_refund_amount g (VList items) = Ok (false, None)).
  { intros l. apply for_field_in_all_continue. intros field. apply step_list. }
  repeat split; auto using step_string, step_list.
Qed.

(** ** Determinism *)

(** Each piece of the program gives the outcome of the function of the
    same name and leaves the module state as it found it. *)

Lemma st_for_keyword_in_pure (keywords : list string) (data_lower : string)
    (s : globals) :
  Stateful.st_for_keyword_in keywords data_lower s
    = (Ok (for_keyword_in keywords data_lower), s).
Proof.
  induction keywords as [|k rest IH]; simpl; [reflexivity|].
  destruct (str_contains (lower k) data_lower); [reflexivity | exact IH].
Qed.

Lemma st_check_for_banned_keywords_pure (data_str : string) (s : globals) :
  Stateful.st_check_for_banned_keywords data_str s
    = (Ok (check_for_banned_keywords s data_str), s).
Proof.
  unfold Stateful.st_check_for_banned_keywords, Stateful.seq, Stateful.load.
  apply st_for_keyword_in_pure.
Qed.

Lemma st_refund_field_step_pure (data : value) (field : string) (s : globals) :
  Stateful.st_refund_field_step data field s
    = (refund_field_step s data field, s).
Proof.
  unfold Stateful.st_refund_field_step, refund_field_step,
    Stateful.st_try_except, Stateful.seq, Stateful.lift, Stateful.load,
    Stateful.ret, try_except, bind.
  destruct (contains data field) as [[|]|e]; try reflexivity.
  destruct (getitem data field) as [item|e].
  - destruct (py_float item) as [amount|e].
    + destruct (float_gt_int amount (MAX_REFUND_AMOUNT s)); reflexivity.
    + destruct (existsb (exn_eqb e) [ValueError; TypeError]); reflexivity.
  - destruct (existsb (exn_eqb e) [ValueError; TypeError]); reflexivity.
Qed.

Lemma st_for_field_in_pure (data : value) (fields : list string) (s : globals) :
  Stateful.st_for_field_in data fields s = (for_field_in s data fields, s).
Proof.
  induction fields as [|field rest IH]; [reflexivity|].
  simpl. unfold Stateful.seq. rewrite st_refund_field_step_pure.
  destruct (refund_field_step s data field) as [[out|]|e]; simpl;
    [reflexivity | exact IH | reflexivity].
Qed.

Lemma st_refund_reason_pure (amount : option float) (s : globals) :
  Stateful.st_refund_reason amount s = (refund_reason s amount, s).
Proof. destruct amount; reflexivity. Qed.

Lemma st_audit_request_pure (data : value) (s : globals) :
  Stateful.st_audit_request data s = (audit_request s data, s).
Proof.
  unfold Stateful.st_audit_request, audit_request.
  destruct (is_none data); [reflexivity|].
  unfold Stateful.seq. rewrite st_check_for_banned_keywords_pure.
  destruct (check_for_banned_keywords s (str data)) as [[|] kw]; simpl;
    [reflexivity|].
  unfold Stateful.st_check_refund_amount, check_refund_amount.
  rewrite st_for_field_in_pure.
  destruct (for_field_in s data refund_fields) as [[[|] amount]|e]; simpl;
    try reflexivity.
  rewrite st_refund_reason_pure.
  destruct (refund_reason s amount); reflexivity.
Qed.

Lemma handle_spec (g : globals) (data : value) :
  handle g data = (g, audit_request g data).
Proof. unfold handle. now rewrite st_audit_request_pure. Qed.

Lemma serve_spec (g : globals) (requests : list value) :
  serve g requests = (g, map (audit_request g) requests).
Proof.
  induction requests as [|data rest IH]; [reflexivity|].
  cbn [serve]. rewrite handle_spec, IH. reflexivity.
Qed.

(** C9.  Two audits of the same payload give the same outcome.  Run as a
    program over the module state, with every read of [BANNED_KEYWORDS]
    and [MAX_REFUND_AMOUNT] where the source has it, the audit leaves the
    state exactly as it found it, whether it answers or raises, and its
    outcome is a function of that state and of the payload alone.  So a
    second call on the same payload starts from the same state and gives
    the same outcome, directly after the first or with any other audits
    served in between. *)
Theorem audit_twice_same_verdict :
  forall (g : globals) (before between : list value) (data : value),
    Stateful.st_audit_request data g = (audit_request g data, g) /\
    (forall r1 g1 r2 g2,
        Stateful.st_audit_request data g = (r1, g1) ->
        Stateful.st_audit_request data g1 = (r2, g2) ->
        r1 = r2 /\ g1 = g /\ g2 = g) /\
    exists (rs1 rs2 : list (result response)) (r : result response),
      serve g (before ++ data :: between ++ [data])%list
        = (g, (rs1 ++ r :: rs2 ++ [r])%list) /\
      List.length rs1 = List.length before /\
      List.length rs2 = List.length between /\
      r = audit_request g data /\
      handle g data = (g, r).
Proof.
  intros g before between data. split; [apply st_audit_request_pure|].
  split.
  - intros r1 g1 r2 g2 H1 H2. rewrite st_audit_request_pure in H1.
    injection H1 as <- <-. rewrite st_audit_request_pure in H2.
    injection H2 as <- <-. auto.
  - exists (map (audit_request g) before), (map (audit_request g) between),
      (audit_request g data).
    rewrite serve_spec, handle_spec. repeat split.
    + rewrite map_app. simpl. now rewrite map_app.
    + apply length_map.
    + apply length_map.
Qed.

Lemma audit_twice_same_verdict_witness :
  Ok (blocked "Refund amount $750.00 exceeds maximum of $500", 200)
    = Ok (blocked "Refund amount $750.00 exceeds maximum of $500", 200) /\
  module_globals = module_globals /\ module_globals = module_globals.
Proof.
  refine (proj1 (proj2 (audit_twice_same_verdict module_globals [] []
                          scenario_C))
            (Ok (blocked "Refund amount $750.00 exceeds maximum of $500", 200))
            module_globals
            (Ok (blocked "Refund amount $750.00 exceeds maximum of $500", 200))
            module_globals _ _).
  - vm_compute. reflexivity.
  - vm_compute. reflexivity.
Defined.

(* ===================================================================== *)
(** * Further properties of the engine                                    *)
(* ===================================================================== *)

(** ** Shapes of the results *)

Lemma for_keyword_in_shape (keywords : list string) (data_lower : string) :
  (for_keyword_in keywords data_lower = (false, None) /\
   forall k, In k keywords -> str_contains (lower k) data_lower = false) \/
  (exists kw, In kw keywords /\ str_contains (lower kw) data_lower = true /\
              for_keyword_in keywords data_lower = (true, Some kw)).
Proof.
  induction keywords as [|k rest IH]; simpl.
  - left. split; [reflexivity | intros k []].
  - destruct (str_contains (lower k) data_lower) eqn:Hk.
    + right. exists k. auto.
    + destruct IH as [[Hr Hmiss] | [kw [Hin [Hhit Hr]]]].
      * left. split; [exact Hr|]. intros k' [<- | Hk']; auto.
      * right. exists kw. auto.
Qed.

Lemma step_shape (g : globals) (data : value) (field : string) :
  refund_field_step g data field = Ok None \/
  (exists a, refund_field_step g data field = Ok (Some (true, Some a)) /\
             exceeds_limit g data field a) \/
  (exists e, refund_field_step g data field = Raise e).
Proof.
  destruct (refund_field_step g data field) as [[out|]|e] eqn:Hs.
  - right; left. destruct (step_return_inv _ _ _ _ Hs) as [a [-> Hex]].
    now exists a.
  - now left.
  - right; right. now exists e.
Qed.

Lemma for_field_in_shape (g : globals) (data : value) (fields : list string) :
  (for_field_in g data fields = Ok (false, None) /\
   forall field a, In field fields -> ~ exceeds_limit g data field a) \/
  (exists field a, In field fields /\ exceeds_limit g data field a /\
                   for_field_in g data fields = Ok (true, Some a)) \/
  (exists e, for_field_in g data fields = Raise e).
Proof.
  induction fields as [|f rest IH].
  - left. split; [reflexivity | intros field a []].
  - destruct (step_shape g data f) as [Hs | [[a [Hs Hex]] | [e Hs]]].
    + rewrite (for_field_in_continue _ _ _ _ Hs).
      destruct IH as [[Hr Hlim] | [[field [a [Hin [Hex Hr]]]] | [e Hr]]].
      * left. split; [exact Hr|]. intros field a [<- | Hin]; [|now apply Hlim].
        intros [es [v [-> [Hl [Hf Hgt]]]]].
        rewrite (step_over g es f v a Hl Hf Hgt) in Hs. discriminate.
      * right; left. exists field, a. repeat split; auto. now right.
      * right; right. now exists e.
    + right; left. exists f, a. repeat split; auto; [now left|].
      now apply for_field_in_return.
    + right; right. exists e. simpl. now rewrite Hs.
Qed.

(** The ways through [audit_request]. *)
Lemma audit_request_cases (g : globals) (data : value) :
  (data = VNone /\
   audit_request g data = Ok (blocked invalid_json_reason, 400)) \/
  (data <> VNone /\
   exists kw, In kw (BANNED_KEYWORDS g) /\ phrase_in kw data = true /\
              audit_request g data = Ok (blocked (keyword_reason (Some kw)), 200)) \/
  (data <> VNone /\
   (forall k, In k (BANNED_KEYWORDS g) -> phrase_in k data = false) /\
   exists field a, In field refund_fields /\ exceeds_limit g data field a /\
     audit_request g data
       = Ok (blocked ("Refund amount $" ++ format_2f a
                        ++ " exceeds maximum of $"
                        ++ str_of_int (MAX_REFUND_AMOUNT g)), 200)) \/
  (data <> VNone /\
   (forall k, In k (BANNED_KEYWORDS g) -> phrase_in k data = false) /\
   (forall field a, In field refund_fields -> ~ exceeds_limit g data field a) /\
   audit_request g data = Ok (approved, 200)) \/
  (data <> VNone /\
   (forall k, In k (BANNED_KEYWORDS g) -> phrase_in k data = false) /\
   exists e, check_refund_amount g data = Raise e /\
             audit_request g data = Raise e).
Proof.
  destruct (is_none data) eqn:Hnone.
  { left. destruct data; try discriminate Hnone. split; reflexivity. }
  assert (Hnn : data <> VNone) by (intros ->; discriminate Hnone).
  right.
  destruct (for_keyword_in_shape (BANNED_KEYWORDS g) (lower (str data)))
    as [[Hr Hmiss] | [kw [Hin [Hhit Hr]]]].
  - right.
    destruct (for_field_in_shape g data refund_fields)
      as [[Hc Hlim] | [[field [a [Hin [Hex Hc]]]] | [e Hc]]].
    + right; left. repeat split; auto.
      now apply audit_request_approved.
    + left. repeat split; auto. exists field, a. repeat split; auto.
      now apply audit_request_refund.
    + right; right. repeat split; auto. exists e. split; [exact Hc|].
      rewrite (audit_request_clean g data Hnone Hr).
      unfold check_refund_amount in Hc |- *. now rewrite Hc.
  - left. split; [exact Hnn|]. exists kw. repeat split; auto.
    now apply audit_request_banned.
Qed.

(** ** The keyword scanner *)

Lemma lower_app (a b : string) : lower (a ++ b) = lower a ++ lower b.
Proof. induction a as [|c a IH]; simpl; [reflexivity | now rewrite IH]. Qed.

Lemma lower_char_idempotent (c : ascii) :
  lower_char (lower_char c) = lower_char c.
Proof. destruct c as [[] [] [] [] [] [] [] []]; reflexivity. Qed.

Lemma lower_idempotent (s : string) : lower (lower s) = lower s.
Proof.
  induction s as [|c s IH]; simpl; [reflexivity|].
  now rewrite lower_char_idempotent, IH.
Qed.

Lemma append_assoc (a b c : string) : (a ++ b) ++ c = a ++ b ++ c.
Proof. induction a as [|x a IH]; simpl; [reflexivity | now rewrite IH]. Qed.

Lemma str_contains_embed (sub s a b : string) :
  str_contains sub s = true -> str_contains sub (a ++ s ++ b) = true.
Proof.
  rewrite !str_contains_spec. intros [x [y ->]].
  exists (a ++ x), (y ++ b). now rewrite !append_assoc.
Qed.

(** X1.  The scanner reports a hit exactly when the lower-cased text has
    the lower-cased form of some listed phrase as a substring; the phrase
    it returns is an entry of the list, spelled as in the list and not as
    in the text; and the answer is always [(False, None)] or
    [(True, phrase)]. *)
Theorem scan_hits_iff_phrase_occurs :
  forall (g : globals) (data_str : string),
    (fst (check_for_banned_keywords g data_str) = true <->
     exists k a b,
       In k (BANNED_KEYWORDS g) /\ lower data_str = a ++ lower k ++ b) /\
    (check_for_banned_keywords g data_str = (false, None) \/
     exists kw,
       In kw (BANNED_KEYWORDS g) /\
       check_for_banned_keywords g data_str = (true, Some kw)).
Proof.
  intros g data_str. unfold check_for_banned_keywords.
  destruct (for_keyword_in_shape (BANNED_KEYWORDS g) (lower data_str))
    as [[Hr Hmiss] | [kw [Hin [Hhit Hr]]]]; rewrite Hr; simpl.
  - split; [|now left]. split; [discriminate|].
    intros [k [a [b [Hin Heq]]]].
    assert (Hk : str_contains (lower k) (lower data_str) = true).
    { apply str_contains_spec. now exists a, b. }
    rewrite (Hmiss k Hin) in Hk. discriminate.
  - split; [|right; now exists kw]. split; [|reflexivity]. intros _.
    apply str_contains_spec in Hhit. destruct Hhit as [a [b Heq]].
    now exists kw, a, b.
Qed.

(** X2.  A hit cannot be hidden: when a text is reported, so is every text
    that has it inside, whatever is put before and after; and the letter
    case of the text plays no part, the scan of the lower-cased text gives
    the very same answer. *)
Theorem scan_hit_survives_embedding :
  forall (g : globals) (data_str : string),
    (forall before after,
        fst (check_for_banned_keywords g data_str) = true ->
        fst (check_for_banned_keywords g (before ++ data_str ++ after)) = true) /\
    check_for_banned_keywords g (lower data_str)
      = check_for_banned_keywords g data_str.
Proof.
  intros g data_str. split.
  - intros before after. unfold check_for_banned_keywords.
    destruct (for_keyword_in_shape (BANNED_KEYWORDS g) (lower data_str))
      as [[Hr _] | [kw [Hin [Hhit _]]]]; [rewrite Hr; discriminate|].
    intros _.
    destruct (for_keyword_in_shape (BANNED_KEYWORDS g)
                (lower (before ++ data_str ++ after)))
      as [[_ Hmiss] | [kw' [_ [_ Hr]]]]; [|now rewrite Hr].
    specialize (Hmiss kw Hin). rewrite !lower_app in Hmiss.
    rewrite (str_contains_embed _ _ (lower before) (lower after) Hhit) in Hmiss.
    discriminate.
  - unfold check_for_banned_keywords. now rewrite lower_idempotent.
Qed.

Lemma scan_hit_survives_embedding_witness :
  fst (check_for_banned_keywords module_globals
         ("He said: " ++ "an Idiotic idea" ++ ", and left")) = true.
Proof.
  apply (proj1 (scan_hit_survives_embedding module_globals "an Idiotic idea")).
  vm_compute. reflexivity.
Defined.

(** ** The answers of the audit *)

(** X3.  Whenever the route answers, the status code is 400 exactly when
    [get_json()] raised or returned [None], and 200 exactly when it
    returned a payload other than [None]; the body is either the bare
    [{'status': 'APPROVED'}] or a [BLOCKED] status with a reason: the
    reason field is there exactly when the status is not [APPROVED]. *)
Theorem answer_shape :
  forall (g : globals) (request : get_json_outcome) (answer : body) (code : Z),
    audit_route g request = Ok (answer, code) ->
    (code = 400 <->
     (exists message, request = Raised message) \/ request = Returned VNone) /\
    (code = 200 <-> exists data, request = Returned data /\ data <> VNone) /\
    ((answer = approved /\ code = 200) \/
     exists reason, answer = blocked reason) /\
    (field_of "reason" answer = None <->
     field_of "status" answer = Some "APPROVED").
Proof.
  intros g [data|message] answer code Hok; simpl in Hok.
  - assert (Hshape :
      (data = VNone /\ code = 400 /\ exists reason, answer = blocked reason) \/
      (data <> VNone /\ code = 200 /\
       (answer = approved \/ exists reason, answer = blocked reason))).
    { destruct (audit_request_cases g data)
        as [[Hd Hr] | [[Hd [kw [_ [_ Hr]]]] | [[Hd [_ [f [a [_ [_ Hr]]]]]]
           | [[Hd [_ [_ Hr]]] | [Hd [_ [e [_ Hr]]]]]]]];
        rewrite Hr in Hok; try discriminate Hok; injection Hok as <- <-.
      - left. repeat split; auto. now eexists.
      - right. repeat split; auto. right. now eexists.
      - right. repeat split; auto. right. now eexists.
      - right. repeat split; auto. }
    destruct Hshape as [[-> [-> [reason ->]]] | [Hd [-> Hans]]].
    + split; [split; [intros _; now right | reflexivity]|].
      split; [split; [discriminate | intros [d [Hd Hn]]; congruence]|].
      split; [right; now exists reason|].
      split; intros H; discriminate H.
    + split; [split; [discriminate|]|].
      { intros [[m Hm] | Hn]; [discriminate Hm | congruence]. }
      split; [split; [intros _; now exists data | reflexivity]|].
      destruct Hans as [-> | [reason ->]].
      * split; [now left|]. split; reflexivity.
      * split; [right; now exists reason|].
        split; intros H; discriminate H.
  - injection Hok as <- <-.
    split; [split; [intros _; left; now exists message | reflexivity]|].
    split; [split; [discriminate | intros [d [Hd _]]; discriminate Hd]|].
    split; [right; now eexists|].
    split; intros H; discriminate H.
Qed.

Lemma answer_shape_witness :
  (400 = 400 <->
   (exists message, Raised "400 Bad Request" = Raised message) \/
   Raised "400 Bad Request" = Returned VNone) /\
  (400 = 200 <->
   exists data, Raised "400 Bad Request" = Returned data /\ data <> VNone) /\
  ((blocked "JSON parsing error: 400 Bad Request" = approved /\ 400 = 200) \/
   exists reason, blocked "JSON parsing error: 400 Bad Request" = blocked reason) /\
  (field_of "reason" (blocked "JSON parsing error: 400 Bad Request") = None <->
   field_of "status" (blocked "JSON parsing error: 400 Bad Request")
     = Some "APPROVED").
Proof.
  apply (answer_shape module_globals (Raised "400 Bad Request")
           (blocked "JSON parsing error: 400 Bad Request") 400).
  reflexivity.
Defined.

(** X4.  No answer without its ground.  A BLOCKED answer is given only
    when [get_json()] raised (the reason is then the parsing error), when
    it returned [None], when a listed phrase occurs in the text of the
    payload, or when the payload is a mapping with a candidate field above
    the limit.  An APPROVED answer is given only to a payload other than
    [None] in whose text no listed phrase occurs and none of whose
    candidate fields is above the limit. *)
Theorem verdict_is_justified :
  forall (g : globals) (request : get_json_outcome) (answer : body) (code : Z),
    audit_route g request = Ok (answer, code) ->
    (field_of "status" answer = Some "BLOCKED" ->
     (exists message,
         request = Raised message /\
         answer = blocked ("JSON parsing error: " ++ message)) \/
     request = Returned VNone \/
     (exists data k,
         request = Returned data /\
         In k (BANNED_KEYWORDS g) /\ phrase_in k data = true) \/
     (exists data field a,
         request = Returned data /\
         In field refund_fields /\ exceeds_limit g data field a)) /\
    (field_of "status" answer = Some "APPROVED" ->
     exists data,
       request = Returned data /\ data <> VNone /\
       (forall k, In k (BANNED_KEYWORDS g) -> phrase_in k data = false) /\
       (forall field a,
           In field refund_fields -> ~ exceeds_limit g data field a)).
Proof.
  intros g [data|message] answer code Hok; simpl in Hok.
  - destruct (audit_request_cases g data)
      as [[Hd Hr] | [[Hd [kw [Hin [Hhit Hr]]]] | [[Hd [Hc [f [a [Hin [Hex Hr]]]]]]
         | [[Hd [Hc [Hlim Hr]]] | [Hd [_ [e [_ Hr]]]]]]]];
      rewrite Hr in Hok; try discriminate Hok;
      injection Hok as <- <-; (split; [intros Hs | intros Hs]);
      try discriminate Hs.
    + right; left. now subst data.
    + right; right; left. now exists data, kw.
    + right; right; right. now exists data, f, a.
    + exists data. auto.
  - injection Hok as <- <-. split; intros Hs; [|discriminate Hs].
    left. now exists message.
Qed.

Lemma verdict_is_justified_witness :
  (field_of "status" approved = Some "BLOCKED" ->
   (exists message,
       Returned scenario_A = Raised message /\
       approved = blocked ("JSON parsing error: " ++ message)) \/
   Returned scenario_A = Returned VNone \/
   (exists data k,
       Returned scenario_A = Returned data /\
       In k (BANNED_KEYWORDS module_globals) /\ phrase_in k data = true) \/
   (exists data field a,
       Returned scenario_A = Returned data /\
       In field refund_fields /\ exceeds_limit module_globals data field a)) /\
  (field_of "status" approved = Some "APPROVED" ->
   exists data,
     Returned scenario_A = Returned data /\ data <> VNone /\
     (forall k, In k (BANNED_KEYWORDS module_globals) ->
                phrase_in k data = false) /\
     (forall field a,
         In field refund_fields ->
         ~ exceeds_limit module_globals data field a)).
Proof.
  apply (verdict_is_justified module_globals (Returned scenario_A) approved 200).
  vm_compute. reflexivity.
Defined.

(** ** What the evaluator and the audit can raise *)

Lemma py_float_overflow_inv (v : value) :
  py_float v = Raise OverflowError ->
  exists n, v = VInt n /\ float_of_int n = Raise OverflowError.
Proof.
  destruct v as [|b|n|f|s|items|entries]; simpl; intros H;
    try discriminate H.
  - destruct b; vm_compute in H; discriminate H.
  - now exists n.
  - apply float_of_str_raises in H. discriminate H.
Qed.

Lemma step_raise_inv (g : globals) (data : value) (field : string) (e : exn) :
  refund_field_step g data field = Raise e ->
  (e = TypeError /\ (is_number data = true \/ data = VNone)) \/
  (e = OverflowError /\
   exists entries n,
     data = VDict entries /\ lookup field entries = Some (VInt n) /\
     float_of_int n = Raise OverflowError).
Proof.
  unfold refund_field_step.
  destruct data as [|b|n|f|s|items|entries]; simpl; intros H;
    try (injection H as <-; left; split; [reflexivity | auto]).
  - destruct (str_contains field s); discriminate H.
  - destruct (existsb (eq_str field) items); discriminate H.
  - destruct (lookup field entries) as [v|] eqn:Hl; simpl in H;
      [|discriminate H].
    destruct (py_float v) as [a|e'] eqn:Hf; simpl in H.
    + destruct (float_gt_int a (MAX_REFUND_AMOUNT g)); discriminate H.
    + destruct (py_float_raises v e' Hf) as [-> | [-> | ->]];
        simpl in H; try discriminate H.
      injection H as <-. right. split; [reflexivity|].
      destruct (py_float_overflow_inv v Hf) as [n [-> Hn]].
      now exists entries, n.
Qed.

Lemma for_field_in_raise_inv (g : globals) (data : value)
    (fields : list string) (e : exn) :
  for_field_in g data fields = Raise e ->
  (e = TypeError /\ (is_number data = true \/ data = VNone)) \/
  (e = OverflowError /\
   exists entries field n,
     data = VDict entries /\ In field fields /\
     lookup field entries = Some (VInt n) /\
     float_of_int n = Raise OverflowError).
Proof.
  induction fields as [|f rest IH]; simpl; [discriminate|].
  destruct (refund_field_step g data f) as [[out|]|e'] eqn:Hs; simpl.
  - discriminate.
  - intros H. destruct (IH H) as [Ht | [He [es [fld [n [Hd [Hin Hrest]]]]]]].
    + now left.
    + right. split; [exact He|]. exists es, fld, n.
      destruct Hrest as [Hl Hn].
      split; [exact Hd | split; [now right | split; assumption]].
  - intros H. injection H as <-.
    destruct (step_raise_inv _ _ _ _ Hs) as [Ht | [He [es [n [Hd [Hl Hn]]]]]].
    + now left.
    + right. split; [exact He|]. exists es, f, n.
      split; [exact Hd | split; [now left | split; assumption]].
Qed.

(** X5.  The audit raises in two ways only, and never when a listed phrase
    occurs in the payload.  It raises [TypeError] exactly on a payload that
    is a number (int, float or boolean) free of listed phrases.  Any other
    exception is an [OverflowError], on a mapping in which a candidate
    field holds an int that [float] cannot convert.  [KeyError] and
    [ValueError] never leave the function. *)
Theorem audit_raises_only_two_ways :
  forall (g : globals) (data : value),
    (is_number data = true ->
     (forall k, In k (BANNED_KEYWORDS g) -> phrase_in k data = false) ->
     audit_request g data = Raise TypeError) /\
    (forall e,
        audit_request g data = Raise e ->
        (forall k, In k (BANNED_KEYWORDS g) -> phrase_in k data = false) /\
        ((e = TypeError /\ is_number data = true) \/
         (e = OverflowError /\
          exists entries field n,
            data = VDict entries /\ In field refund_fields /\
            lookup field entries = Some (VInt n) /\
            float_of_int n = Raise OverflowError))).
Proof.
  intros g data. split.
  - intros Hnum Hclean.
    assert (Hnone : is_none data = false) by (destruct data; easy).
    rewrite (audit_request_clean g data Hnone (clean_scan g data Hclean)).
    destruct data; try discriminate Hnum; reflexivity.
  - intros e Hraise.
    destruct (audit_request_cases g data)
      as [[Hd Hr] | [[Hd [kw [_ [_ Hr]]]] | [[Hd [_ [f [a [_ [_ Hr]]]]]]
         | [[Hd [_ [_ Hr]]] | [Hd [Hclean [e' [Hc Hr]]]]]]]];
      rewrite Hr in Hraise; try discriminate Hraise.
    injection Hraise as <-. split; [exact Hclean|].
    destruct (for_field_in_raise_inv _ _ _ _ Hc)
      as [[He [Hn | Hn]] | Hov]; [now left | contradiction | now right].
Qed.

Lemma audit_raises_only_two_ways_witness :
  audit_request module_globals (VFloat (S754_zero false)) = Raise TypeError.
Proof.
  apply (proj1 (audit_raises_only_two_ways module_globals
                  (VFloat (S754_zero false)))).
  - reflexivity.
  - simpl. intros k H.
    repeat (destruct H as [<- | H]; [vm_compute; reflexivity|]). destruct H.
Defined.

(** ** The result of the evaluator *)

(** X6.  When the evaluator returns, the amount is there exactly when the
    flag is set, and it is then the amount of a candidate field of the
    mapping, above the limit: [(False, None)] or [(True, amount)], never
    [(True, None)] nor [(False, amount)].  The [.2f] format of the reason is
    therefore never applied to [None]. *)
Theorem evaluator_result_shape :
  forall (g : globals) (data : value) (is_blocked : bool)
         (amount : option float),
    check_refund_amount g data = Ok (is_blocked, amount) ->
    (is_blocked = false /\ amount = None /\
     forall field a, In field refund_fields -> ~ exceeds_limit g data field a) \/
    (is_blocked = true /\
     exists field a,
       amount = Some a /\ In field refund_fields /\
       exceeds_limit g data field a /\
       exists reason, refund_reason g amount = Ok reason).
Proof.
  intros g data b oa Hc. unfold check_refund_amount in Hc.
  destruct (for_field_in_shape g data refund_fields)
    as [[Hr Hlim] | [[field [a [Hin [Hex Hr]]]] | [e Hr]]];
    rewrite Hr in Hc; try discriminate Hc; injection Hc as <- <-.
  - left. auto.
  - right. split; [reflexivity|]. exists field, a. repeat split; auto.
    simpl. now eexists.
Qed.

Lemma evaluator_result_shape_witness :
  (true = false /\ Some (nearest_of_Z 750) = None /\
   forall field a,
     In field refund_fields -> ~ exceeds_limit module_globals scenario_C field a) \/
  (true = true /\
   exists field a,
     Some (nearest_of_Z 750) = Some a /\ In field refund_fields /\
     exceeds_limit module_globals scenario_C field a /\
     exists reason,
       refund_reason module_globals (Some (nearest_of_Z 750)) = Ok reason).
Proof.
  apply (evaluator_result_shape module_globals scenario_C true
           (Some (nearest_of_Z 750))).
  vm_compute. reflexivity.
Defined.

Lemma step_reads_lookup (g : globals) (e1 e2 : list (string * value))
    (field : string) :
  lookup field e1 = lookup field e2 ->
  refund_field_step g (VDict e1) field = refund_field_step g (VDict e2) field.
Proof. intros H. unfold refund_field_step. simpl. now rewrite H. Qed.

Lemma for_field_in_reads_lookup (g : globals) (e1 e2 : list (string * value))
    (fields : list string) :
  (forall field, In field fields -> lookup field e1 = lookup field e2) ->
  for_field_in g (VDict e1) fields = for_field_in g (VDict e2) fields.
Proof.
  induction fields as [|f rest IH]; intros H; [reflexivity|].
  simpl. rewrite (step_reads_lookup g e1 e2 f) by (apply H; now left).
  rewrite IH; [reflexivity|]. intros field Hin. apply H. now right.
Qed.

Lemma for_field_in_all_continue_on (g : globals) (data : value)
    (fields : list string) :
  (forall field, In field fields -> refund_field_step g data field = Ok None) ->
  for_field_in g data fields = Ok (false, None).
Proof.
  induction fields as [|f rest IH]; intros H; [reflexivity|].
  rewrite for_field_in_continue by (apply H; now left).
  apply IH. intros field Hin. apply H. now right.
Qed.

(** X7.  The evaluator reads a mapping through its three top-level keys
    [refund_amount], [refund] and [amount] only.  Two mappings that agree
    on these keys get the same result, whatever else they hold; and a
    mapping with none of the three keys at its top level gets
    [(False, None)], also when such a key sits deeper in the tree or is
    spelled in another case. *)
Theorem evaluator_reads_three_keys :
  forall (g : globals) (e1 e2 : list (string * value)),
    ((forall field, In field refund_fields ->
                    lookup field e1 = lookup field e2) ->
     check_refund_amount g (VDict e1) = check_refund_amount g (VDict e2)) /\
    ((forall field, In field refund_fields -> lookup field e1 = None) ->
     check_refund_amount g (VDict e1) = Ok (false, None)).
Proof.
  intros g e1 e2. split.
  - intros H. now apply for_field_in_reads_lookup.
  - intros H. unfold check_refund_amount.
    apply for_field_in_all_continue_on. intros field Hin.
    apply step_absent. now apply H.
Qed.

Lemma evaluator_reads_three_keys_witness :
  check_refund_amount module_globals
    (VDict [("order", VDict [("refund", VInt 9999)]); ("Refund", VInt 9999)])
    = Ok (false, None).
Proof.
  apply (proj2 (evaluator_reads_three_keys module_globals
                  [("order", VDict [("refund", VInt 9999)]);
                   ("Refund", VInt 9999)] [])).
  intros field H. simpl in H.
  repeat (destruct H as [<- | H]; [reflexivity|]). destruct H.
Defined.

(** ** Phrases inside the payload tree *)

Lemma plain_lower_char (c : ascii) :
  plain (lower_char c) = true -> plain c = true.
Proof.
  destruct c as [[] [] [] [] [] [] [] []]; vm_compute; intros H;
    (reflexivity || discriminate H).
Qed.

Lemma repr_char_plain (q c : ascii) :
  q = squote \/ q = dquote -> plain c = true ->
  repr_char q c = String c EmptyString.
Proof.
  intros [-> | ->]; destruct c as [[] [] [] [] [] [] [] []]; vm_compute;
    intros H; (reflexivity || discriminate H).
Qed.

Lemma starts_with_contains (sub s : string) :
  starts_with sub s = true -> str_contains sub s = true.
Proof. intros H. destruct s; simpl; now rewrite H. Qed.

Lemma str_contains_after (sub a s : string) :
  str_contains sub s = true -> str_contains sub (a ++ s) = true.
Proof.
  intros H. induction a as [|x a IH]; simpl; [exact H|].
  rewrite IH. apply orb_true_r.
Qed.

Lemma starts_with_repr_chars (q : ascii) (pl s : string) :
  q = squote \/ q = dquote -> all_plain pl = true ->
  starts_with pl (lower s) = true ->
  starts_with pl (lower (repr_chars q s)) = true.
Proof.
  intros Hq. revert s. induction pl as [|c pl IH]; intros s Hpl Hs.
  - reflexivity.
  - destruct s as [|x s]; simpl in Hs; [discriminate Hs|].
    simpl in Hpl. apply andb_true_iff in Hpl. destruct Hpl as [Hc Hpl].
    apply andb_true_iff in Hs. destruct Hs as [Hx Hs].
    apply Ascii.eqb_eq in Hx. subst c.
    simpl. rewrite (repr_char_plain q x Hq (plain_lower_char x Hc)).
    simpl. rewrite Ascii.eqb_refl. simpl. now apply IH.
Qed.

Lemma str_contains_repr_chars (q : ascii) (pl s : string) :
  q = squote \/ q = dquote -> all_plain pl = true ->
  str_contains pl (lower s) = true ->
  str_contains pl (lower (repr_chars q s)) = true.
Proof.
  intros Hq Hpl. induction s as [|x s IH]; intros Hs.
  - apply starts_with_contains. apply starts_with_repr_chars; auto.
    simpl in Hs |- *. now rewrite orb_false_r in Hs.
  - cbn [lower str_contains] in Hs. apply orb_true_iff in Hs.
    destruct Hs as [Hs | Hs].
    + apply starts_with_contains. now apply starts_with_repr_chars.
    + cbn [repr_chars]. rewrite lower_app. apply str_contains_after.
      now apply IH.
Qed.

Lemma str_contains_str_repr (pl s : string) :
  all_plain pl = true ->
  str_contains pl (lower s) = true ->
  str_contains pl (lower (str_repr s)) = true.
Proof.
  intros Hpl Hs. unfold str_repr.
  set (q := if has_char squote s && negb (has_char dquote s)
            then dquote else squote).
  assert (Hq : q = squote \/ q = dquote).
  { unfold q. destruct (has_char squote s && negb (has_char dquote s)); auto. }
  change (String q (repr_chars q s ++ String q EmptyString))
    with (String q EmptyString ++ repr_chars q s ++ String q EmptyString).
  rewrite !lower_app. apply str_contains_embed.
  now apply str_contains_repr_chars.
Qed.

Lemma join_embed (sep x : string) (l : list string) :
  In x l -> exists a b, join sep l = a ++ x ++ b.
Proof.
  induction l as [|y l IH]; intros Hin; [destruct Hin|].
  destruct Hin as [-> | Hin].
  - destruct l as [|z l].
    + exists EmptyString, EmptyString. simpl.
      induction x as [|c x IHx]; simpl; [reflexivity | now rewrite <- IHx].
    + exists EmptyString, (sep ++ join sep (z :: l)). reflexivity.
  - destruct (IH Hin) as [a [b Hab]]. destruct l as [|z l]; [destruct Hin|].
    exists (y ++ sep ++ a), b.
    change (join sep (y :: z :: l)) with (y ++ sep ++ join sep (z :: l)).
    rewrite Hab. now rewrite !append_assoc.
Qed.

Lemma str_contains_join (pl sep x : string) (l : list string) :
  In x l -> str_contains pl (lower x) = true ->
  str_contains pl (lower (join sep l)) = true.
Proof.
  intros Hin Hx. destruct (join_embed sep x l Hin) as [a [b ->]].
  rewrite !lower_app. now apply str_contains_embed.
Qed.

(** A phrase of plain characters found in a string of the tree is found in
    the text [repr] gives for the tree. *)
Lemma repr_keeps_text (pl s : string) (v : value) :
  all_plain pl = true -> text_in s v ->
  str_contains pl (lower s) = true ->
  str_contains pl (lower (repr v)) = true.
Proof.
  intros Hpl Hin Hs. induction Hin as [|items v Hv _ IH|entries v Hv
                                       |entries k v Hv _ IH].
  - now apply str_contains_str_repr.
  - cbn [repr]. rewrite !lower_app. apply str_contains_embed.
    apply (str_contains_join pl ", " (repr v)); [|exact IH].
    now apply in_map.
  - cbn [repr]. rewrite !lower_app. apply str_contains_embed.
    apply (str_contains_join pl ", " (str_repr s ++ ": " ++ repr v)).
    + apply (in_map (fun kv => str_repr (fst kv) ++ ": " ++ repr (snd kv))
               entries (s, v) Hv).
    + rewrite lower_app.
      apply (str_contains_embed pl (lower (str_repr s)) EmptyString).
      now apply str_contains_str_repr.
  - cbn [repr]. rewrite !lower_app. apply str_contains_embed.
    apply (str_contains_join pl ", " (str_repr k ++ ": " ++ repr v)).
    + apply (in_map (fun kv => str_repr (fst kv) ++ ": " ++ repr (snd kv))
               entries (k, v) Hv).
    + rewrite !lower_app. apply str_contains_after, str_contains_after.
      exact IH.
Qed.

Lemma module_phrases_are_plain (k : string) :
  In k (BANNED_KEYWORDS module_globals) -> all_plain (lower k) = true.
Proof.
  simpl. intros H.
  repeat (destruct H as [<- | H]; [reflexivity|]). destruct H.
Qed.

(** X8.  Nothing in the tree escapes the scan.  When a listed phrase
    occurs, in any letter case, inside a string of the payload (the payload
    itself, a key of a mapping, or a string value at any depth of lists and
    mappings), the audit returns BLOCKED with the banned-keyword reason of
    a listed phrase. *)
Theorem phrase_anywhere_in_tree_blocks :
  forall (data : value) (s : string),
    text_in s data ->
    (exists k, In k (BANNED_KEYWORDS module_globals) /\
               str_contains (lower k) (lower s) = true) ->
    exists kw,
      In kw (BANNED_KEYWORDS module_globals) /\
      phrase_in kw data = true /\
      audit_request module_globals data
        = Ok (blocked ("Banned keyword detected: "
                         ++ String dquote (kw ++ String dquote "")), 200).
Proof.
  intros data s Hin [k [Hk Hs]].
  assert (Hnone : is_none data = false) by (destruct Hin; reflexivity).
  assert (Hphrase : phrase_in k data = true).
  { unfold phrase_in.
    assert (Hrepr := repr_keeps_text (lower k) s data
                       (module_phrases_are_plain k Hk) Hin Hs).
    destruct Hin; try exact Hrepr. exact Hs. }
  destruct (for_keyword_in_shape (BANNED_KEYWORDS module_globals)
              (lower (str data))) as [[_ Hmiss] | [kw [Hkw [Hhit Hr]]]].
  - unfold phrase_in in Hphrase. rewrite (Hmiss k Hk) in Hphrase.
    discriminate Hphrase.
  - exists kw. repeat split; auto.
    now apply (audit_request_banned module_globals data kw Hnone).
Qed.

Lemma phrase_anywhere_in_tree_blocks_witness :
  exists kw,
    In kw (BANNED_KEYWORDS module_globals) /\
    phrase_in kw nested_angry = true /\
    audit_request module_globals nested_angry
      = Ok (blocked ("Banned keyword detected: "
                       ++ String dquote (kw ++ String dquote "")), 200).
Proof.
  apply (phrase_anywhere_in_tree_blocks nested_angry "So ANGRY!").
  - eapply text_value; [left; reflexivity|].
    eapply text_item; [right; left; reflexivity|].
    eapply text_value; [left; reflexivity|]. apply text_here.
  - exists "angry". split; [simpl; tauto | vm_compute; reflexivity].
Defined.

(** ** Integer amounts *)

Lemma digits2_pos_size (p : positive) : digits2_pos p = Pos.size p.
Proof. induction p; simpl; congruence. Qed.

Lemma digits_small (p : positive) :
  Zpos p < 2 ^ 53 -> Zpos (digits2_pos p) <= 53.
Proof.
  intros H. rewrite digits2_pos_size.
  destruct (Z_le_gt_dec (Zpos (Pos.size p)) 53) as [Hle | Hgt]; [exact Hle|].
  exfalso. pose proof (Pos.size_le p) as Hs.
  assert (H2 : 2 ^ 54 <= 2 ^ Zpos (Pos.size p)) by (apply Z.pow_le_mono_r; lia).
  assert (H3 : Zpos (2 ^ Pos.size p) = 2 ^ Zpos (Pos.size p)) by apply Pos2Z.inj_pow.
  assert (H4 : Zpos (2 ^ Pos.size p) <= Zpos p~0) by exact Hs.
  change (2 ^ 54) with (2 * 2 ^ 53) in H2. lia.
Qed.

Lemma iter_xO_value (k p : positive) :
  Zpos (Pos.iter xO p k) = Zpos p * 2 ^ Zpos k.
Proof.
  induction k as [|k IH] using Pos.peano_ind.
  - simpl. lia.
  - rewrite Pos.iter_succ. rewrite Pos2Z.inj_xO, IH, Pos2Z.inj_succ.
    rewrite Z.pow_succ_r by lia. lia.
Qed.

Lemma iter_xO_digits (k p : positive) :
  Zpos (digits2_pos (Pos.iter xO p k)) = Zpos (digits2_pos p) + Zpos k.
Proof.
  induction k as [|k IH] using Pos.peano_ind.
  - simpl. lia.
  - rewrite Pos.iter_succ. simpl digits2_pos. rewrite Pos2Z.inj_succ, IH. lia.
Qed.

Lemma binary_round_aux_exact (s : bool) (mz : positive) (ez : Z) :
  Zpos (digits2_pos mz) = 53 -> -1074 <= ez <= 971 ->
  binary_round_aux prec emax s (Zpos mz) ez loc_Exact = S754_finite s mz ez.
Proof.
  intros Hd He. unfold binary_round_aux.
  assert (Hshift : forall m, Zdigits2 (Zpos m) = 53 ->
            shr_fexp prec emax (Zpos m) ez loc_Exact
            = ({| shr_m := Zpos m; shr_r := false; shr_s := false |}, ez)).
  { intros m Hm. unfold shr_fexp. rewrite Hm.
    replace (fexp prec emax (53 + ez) - ez) with 0; [reflexivity|].
    unfold fexp, emin, prec, emax. lia. }
  rewrite (Hshift mz Hd). simpl. rewrite (Hshift mz Hd). simpl.
  change (emax - prec) with 971.
  destruct (ez <=? 971) eqn:Hle; [reflexivity | lia].
Qed.

Lemma binary_round_small (s : bool) (p : positive) :
  Zpos p < 2 ^ 53 ->
  exists mz ez,
    binary_round prec emax s p 0 = S754_finite s mz ez /\
    -52 <= ez <= 0 /\ Zpos mz = Zpos p * 2 ^ (- ez).
Proof.
  intros Hp. pose proof (digits_small p Hp) as Hd.
  assert (H1 : 1 <= Zpos (digits2_pos p)) by lia.
  unfold binary_round.
  replace (fexp prec emax (Zpos (digits2_pos p) + 0))
    with (Zpos (digits2_pos p) - 53)
    by (unfold fexp, emin, prec, emax; lia).
  unfold shl_align.
  destruct (Zpos (digits2_pos p) - 53 - 0) as [|d|d] eqn:Hsub; try lia.
  - exists p, 0. split; [|split; [lia | simpl; lia]].
    apply binary_round_aux_exact; lia.
  - exists (Pos.iter xO p d), (Zpos (digits2_pos p) - 53).
    split; [|split; [lia|]].
    + apply binary_round_aux_exact; [|lia]. rewrite iter_xO_digits. lia.
    + rewrite iter_xO_value. f_equal. f_equal. lia.
Qed.

Lemma float_of_int_small (n : Z) :
  - 2 ^ 53 < n < 2 ^ 53 ->
  exists a,
    float_of_int n = Ok a /\
    (forall m, float_gt_int a m = (n >? m)) /\
    (0 <= n -> format_2f a = str_of_int n ++ ".00").
Proof.
  intros Hn. unfold float_of_int, nearest_of_Z, binary_normalize.
  destruct n as [|p|p].
  - eexists. split; [reflexivity|]. split; [reflexivity|]. reflexivity.
  - destruct (binary_round_small false p) as [mz [ez [-> [He Hm]]]]; [lia|].
    eexists. split; [reflexivity|]. split.
    + intros m. unfold float_gt_int. simpl cond_Zopp.
      destruct (0 <=? ez) eqn:H0.
      * assert (ez = 0) by lia. subst ez. simpl in Hm. rewrite Z.pow_0_r.
        f_equal. lia.
      * rewrite Hm. rewrite !Z.gtb_ltb.
        assert (Hpow : 0 < 2 ^ (- ez)) by (apply Z.pow_pos_nonneg; lia).
        destruct (Z.ltb_spec m (Zpos p)), (Z.ltb_spec (m * 2 ^ (- ez)) (Zpos p * 2 ^ (- ez))); try reflexivity; nia.
    + intros _. unfold format_2f.
      assert (Hpow : 0 < 2 ^ (- ez)) by (apply Z.pow_pos_nonneg; lia).
      assert (Hh : (if 0 <=? ez then Zpos mz * 2 ^ ez * 100
                    else round_half_even (Zpos mz * 100) (2 ^ (- ez)))
                   = Zpos p * 100).
      { destruct (0 <=? ez) eqn:H0.
        - assert (ez = 0) by lia. subst ez. simpl in Hm. rewrite Z.pow_0_r. lia.
        - unfold round_half_even. rewrite Hm.
          replace (Zpos p * 2 ^ (- ez) * 100) with (Zpos p * 100 * 2 ^ (- ez)) by lia.
          rewrite Z.mod_mul, Z.div_mul by lia.
          assert (Hc : (2 * 0 ?= 2 ^ (- ez)) = Lt)
            by (apply Z.compare_lt_iff; lia).
          now rewrite Hc. }
      rewrite Hh. rewrite Z.div_mul by lia.
      replace (Zpos p * 100 mod 100) with 0 by (symmetry; apply Z.mod_mul; lia).
      replace (Zpos p * 100 mod 10) with 0.
      2:{ symmetry. replace (Zpos p * 100) with (Zpos p * 10 * 10) by lia. apply Z.mod_mul; lia. }
      reflexivity.
  - destruct (binary_round_small true p) as [mz [ez [-> [He Hm]]]]; [lia|].
    eexists. split; [reflexivity|]. split.
    + intros m. unfold float_gt_int. simpl cond_Zopp.
      destruct (0 <=? ez) eqn:H0.
      * assert (ez = 0) by lia. subst ez. simpl in Hm. rewrite Z.pow_0_r.
        f_equal. lia.
      * rewrite !Z.gtb_ltb.
        assert (Hpow : 0 < 2 ^ (- ez)) by (apply Z.pow_pos_nonneg; lia).
        change (Z.neg mz) with (- Zpos mz). rewrite Hm.
        destruct (Z.ltb_spec m (Zneg p)), (Z.ltb_spec (m * 2 ^ (- ez)) (- (Zpos p * 2 ^ (- ez)))); try reflexivity; nia.
    + intros H. lia.
Qed.

Lemma refund_fields_split (field : string) :
  In field refund_fields ->
  exists pre post,
    refund_fields = (pre ++ field :: post)%list /\
    forall f, In f pre -> In f refund_fields /\ f <> field.
Proof.
  intros H. simpl in H. destruct H as [<- | [<- | [<- | []]]].
  - exists [], ["refund"; "amount"]. split; [reflexivity | intros f []].
  - exists ["refund_amount"], ["amount"]. split; [reflexivity|].
    intros f [<- | []]. split; [now left | discriminate].
  - exists ["refund_amount"; "refund"], []. split; [reflexivity|].
    intros f [<- | [<- | []]]; (split; [simpl; tauto | discriminate]).
Qed.

(** X9.  An integer amount is judged by its exact value.  For a mapping
    whose only candidate field holds an int [n] with [|n| < 2^53], the
    conversion to a float loses nothing and the evaluator reports a
    violation exactly when [n > MAX_REFUND_AMOUNT]: 500 passes, 501 does
    not. *)
Theorem integer_amount_judged_exactly :
  forall (g : globals) (entries : list (string * value)) (field : string)
         (n : Z),
    In field refund_fields ->
    lookup field entries = Some (VInt n) ->
    (forall f, In f refund_fields -> f <> field -> lookup f entries = None) ->
    - 2 ^ 53 < n < 2 ^ 53 ->
    exists a,
      py_float (VInt n) = Ok a /\
      check_refund_amount g (VDict entries)
        = if n >? MAX_REFUND_AMOUNT g then Ok (true, Some a)
          else Ok (false, None).
Proof.
  intros g entries field n Hin Hl Honly Hn.
  destruct (float_of_int_small n Hn) as [a [Ha [Hgt _]]].
  exists a. split; [exact Ha|].
  assert (Habsent : forall f a', In f refund_fields -> f <> field ->
                      ~ exceeds_limit g (VDict entries) f a').
  { intros f a' Hf Hne [es [v [Heq [Hl' _]]]]. injection Heq as <-.
    rewrite (Honly f Hf Hne) in Hl'. discriminate. }
  unfold check_refund_amount.
  destruct (n >? MAX_REFUND_AMOUNT g) eqn:Hcmp.
  - destruct (refund_fields_split field Hin) as [pre [post [Hsplit Hpre]]].
    rewrite Hsplit. apply mapping_first_violation.
    + intros f v Hf Hl'. destruct (Hpre f Hf) as [Hf' Hne].
      rewrite (Honly f Hf' Hne) in Hl'. discriminate.
    + intros f a' Hf. destruct (Hpre f Hf) as [Hf' Hne]. now apply Habsent.
    + exists entries, (VInt n). repeat split; auto. now rewrite Hgt.
  - apply mapping_no_violation.
    + intros f v Hf Hl'. destruct (String.eqb_spec f field) as [-> | Hne].
      * rewrite Hl in Hl'. injection Hl' as <-. simpl. rewrite Ha. discriminate.
      * rewrite (Honly f Hf Hne) in Hl'. discriminate.
    + intros f a' Hf. destruct (String.eqb_spec f field) as [-> | Hne];
        [|now apply Habsent].
      intros [es [v [Heq [Hl' [Hf' Hgt']]]]]. injection Heq as <-.
      rewrite Hl in Hl'. injection Hl' as <-. simpl in Hf'.
      rewrite Ha in Hf'. injection Hf' as <-. rewrite Hgt in Hgt'. congruence.
Qed.

Lemma integer_amount_judged_exactly_witness :
  exists a,
    py_float (VInt 501) = Ok a /\
    check_refund_amount module_globals (VDict [("note", VNone); ("amount", VInt 501)])
      = if 501 >? MAX_REFUND_AMOUNT module_globals then Ok (true, Some a)
        else Ok (false, None).
Proof.
  apply (integer_amount_judged_exactly module_globals
           [("note", VNone); ("amount", VInt 501)] "amount" 501).
  - simpl; tauto.
  - reflexivity.
  - intros f H Hne. simpl in H.
    destruct H as [<- | [<- | [<- | []]]]; try reflexivity. now contradict Hne.
  - vm_compute. split; reflexivity.
Defined.

(** X10.  The reason shows an integer amount as it was sent, with two
    zeros for the cents.  For a mapping free of listed phrases whose first
    present candidate field holds an int [n] with
    [MAX_REFUND_AMOUNT < n < 2^53], the audit returns BLOCKED with the
    reason [Refund amount $<n>.00 exceeds maximum of $<MAX_REFUND_AMOUNT>]. *)
Theorem integer_amount_reason :
  forall (g : globals) (entries : list (string * value))
         (pre post : list string) (field : string) (n : Z),
    refund_fields = (pre ++ field :: post)%list ->
    (forall f, In f pre -> lookup f entries = None) ->
    lookup field entries = Some (VInt n) ->
    (forall k, In k (BANNED_KEYWORDS g) ->
               phrase_in k (VDict entries) = false) ->
    MAX_REFUND_AMOUNT g < n < 2 ^ 53 -> 0 <= n ->
    audit_request g (VDict entries)
      = Ok (blocked ("Refund amount $" ++ str_of_int n
                       ++ ".00 exceeds maximum of $"
                       ++ str_of_int (MAX_REFUND_AMOUNT g)), 200).
Proof.
  intros g entries pre post field n Hsplit Hpre Hl Hclean Hn H0.
  destruct (float_of_int_small n) as [a [Ha [Hgt Hfmt]]]; [lia|].
  assert (Hc : check_refund_amount g (VDict entries) = Ok (true, Some a)).
  { unfold check_refund_amount. rewrite Hsplit.
    apply mapping_first_violation.
    - intros f v Hf Hl'. rewrite (Hpre f Hf) in Hl'. discriminate.
    - intros f a' Hf [es [v [Heq [Hl' _]]]]. injection Heq as <-.
      rewrite (Hpre f Hf) in Hl'. discriminate.
    - exists entries, (VInt n). repeat split; auto.
      rewrite Hgt. apply Z.gtb_lt. lia. }
  rewrite (audit_request_refund g (VDict entries) a eq_refl Hclean Hc).
  rewrite (Hfmt H0). now rewrite append_assoc.
Qed.

Lemma integer_amount_reason_witness :
  audit_request module_globals
    (VDict [("customer", VStr "bob"); ("refund", VInt 1250)])
    = Ok (blocked ("Refund amount $" ++ str_of_int 1250
                     ++ ".00 exceeds maximum of $"
                     ++ str_of_int (MAX_REFUND_AMOUNT module_globals)), 200).
Proof.
  apply (integer_amount_reason module_globals
           [("customer", VStr "bob"); ("refund", VInt 1250)]
           ["refund_amount"] ["amount"] "refund" 1250).
  - reflexivity.
  - intros f [<- | []]. reflexivity.
  - reflexivity.
  - simpl. intros k H.
    repeat (destruct H as [<- | H]; [vm_compute; reflexivity|]). destruct H.
  - vm_compute. split; reflexivity.
  - lia.
Defined.

(** ** Numbers sent as text *)

Lemma take_digits_step (c : ascii) (t : string) (acc cnt : Z) :
  is_digit c = true ->
  take_digits (String c t) acc cnt
    = take_digits t (10 * acc + (code c - 48)) (cnt + 1).
Proof. intros H. simpl. now rewrite H. Qed.

Ltac digit_step :=
  rewrite take_digits_step by reflexivity;
  match goal with
  | |- context [code ?c - 48] =>
      let v := eval vm_compute in (code c - 48) in
      change (code c - 48) with v
  end.

Lemma take_digits_acc (d : Decimal.uint) (acc : positive) (cnt : Z) :
  take_digits (NilEmpty.string_of_uint d) (Zpos acc) cnt
    = (Zpos (Pos.of_uint_acc d acc),
       cnt + Z.of_nat (Decimal.nb_digits d), EmptyString).
Proof.
  revert acc cnt. induction d as [|d IH|d IH|d IH|d IH|d IH|d IH|d IH|d IH|d IH|d IH];
    intros acc cnt;
    [simpl; f_equal; f_equal; lia | ..];
    cbn [NilEmpty.string_of_uint Pos.of_uint_acc Decimal.nb_digits];
    digit_step;
    match goal with
    | |- context [Pos.of_uint_acc d ?q] =>
        replace (10 * Z.pos acc + _) with (Z.pos q) by lia
    end;
    rewrite IH; f_equal; f_equal; lia.
Qed.

Lemma take_digits_zero (d : Decimal.uint) (cnt : Z) :
  take_digits (NilEmpty.string_of_uint d) 0 cnt
    = (Z.of_N (Pos.of_uint d),
       cnt + Z.of_nat (Decimal.nb_digits d), EmptyString).
Proof.
  revert cnt. induction d as [|d IH|d IH|d IH|d IH|d IH|d IH|d IH|d IH|d IH|d IH];
    intros cnt;
    [simpl; f_equal; f_equal; lia | ..];
    cbn [NilEmpty.string_of_uint Pos.of_uint Decimal.nb_digits];
    digit_step;
    [ change (10 * 0 + 0) with 0; rewrite IH; f_equal; f_equal; lia
    | match goal with
      | |- context [Pos.of_uint_acc d ?q] =>
          change (10 * 0 + _) with (Z.pos q)
      end;
      rewrite take_digits_acc; f_equal; f_equal; lia .. ].
Qed.

Lemma uint_chars_are_digits (d : Decimal.uint) (c : ascii) :
  In c (list_ascii_of_string (NilEmpty.string_of_uint d)) -> is_digit c = true.
Proof.
  induction d; simpl; intros H; try (destruct H as [<- | H]; [reflexivity | auto]).
  destruct H.
Qed.

Lemma digit_facts (c : ascii) :
  is_digit c = true ->
  is_c_space c = false /\ Ascii.eqb c "_" = false /\ to_ascii_char c = c /\
  Ascii.eqb c "-" = false /\ Ascii.eqb c "+" = false /\ Ascii.eqb c "." = false.
Proof.
  destruct c as [[] [] [] [] [] [] [] []]; vm_compute; intros H;
    try discriminate H; repeat split.
Qed.

Lemma to_ascii_same (s : string) :
  (forall c, In c (list_ascii_of_string s) -> to_ascii_char c = c) ->
  to_ascii s = s.
Proof.
  induction s as [|c s IH]; intros H; simpl; [reflexivity|].
  rewrite (H c) by now left. rewrite IH; [reflexivity|].
  intros x Hx. apply H. now right.
Qed.

Lemma strip_same (s : string) :
  (forall c, In c (list_ascii_of_string s) -> is_c_space c = false) ->
  strip s = s.
Proof.
  intros H. unfold strip.
  assert (Hl : lstrip s = s).
  { destruct s as [|c s]; simpl; [reflexivity|]. now rewrite (H c) by now left. }
  rewrite Hl.
  assert (Hr : lstrip_list (rev (list_ascii_of_string s))
               = rev (list_ascii_of_string s)).
  { destruct (rev (list_ascii_of_string s)) as [|c l] eqn:Hrev; [reflexivity|].
    simpl. rewrite (H c); [reflexivity|].
    apply in_rev. rewrite Hrev. now left. }
  rewrite Hr, rev_involutive. apply string_of_list_ascii_of_string.
Qed.

Lemma drop_underscores_same (s : string) (prev : ascii) :
  Ascii.eqb prev "_" = false ->
  (forall c, In c (list_ascii_of_string s) -> Ascii.eqb c "_" = false) ->
  drop_underscores prev s = Some s.
Proof.
  revert prev. induction s as [|c s IH]; intros prev Hp H; simpl.
  - now rewrite Hp.
  - rewrite (H c) by now left. rewrite Hp. simpl.
    rewrite (IH c); [reflexivity | apply H; now left |].
    intros x Hx. apply H. now right.
Qed.

Lemma float_of_str_digits (neg : bool) (p : positive) :
  float_of_str ((if neg then "-" else "") ++ NilEmpty.string_of_uint (Pos.to_uint p))
    = Ok (nearest_of_Z (if neg then Zneg p else Zpos p)).
Proof.
  set (ds := NilEmpty.string_of_uint (Pos.to_uint p)).
  set (s := (if neg then "-" else "") ++ ds).
  assert (Hchars : forall c, In c (list_ascii_of_string s) ->
            is_c_space c = false /\ Ascii.eqb c "_" = false /\ to_ascii_char c = c).
  { intros c Hc.
    assert (Hcase : c = "-"%char \/ In c (list_ascii_of_string ds)).
    { unfold s in Hc. destruct neg; simpl in Hc; [destruct Hc; auto | auto]. }
    destruct Hcase as [-> | Hd]; [repeat split|].
    destruct (digit_facts c (uint_chars_are_digits _ c Hd)) as [? [? [? _]]]. auto. }
  unfold float_of_str.
  rewrite to_ascii_same by (intros c Hc; apply Hchars, Hc).
  rewrite strip_same by (intros c Hc; apply Hchars, Hc).
  rewrite drop_underscores_same;
    [| reflexivity | intros c Hc; apply Hchars, Hc].
  assert (Hne : exists c t, ds = String c t /\ is_digit c = true).
  { unfold ds. pose proof (Unsigned.to_uint_nonnil p) as Hnn.
    destruct (Pos.to_uint p) eqn:E; try congruence; simpl;
      eexists; eexists; (split; [reflexivity | reflexivity]). }
  assert (Hsign : take_sign s = (neg, ds)).
  { unfold s. destruct neg; [reflexivity|]. simpl.
    destruct Hne as [c [t [-> Hc]]]. simpl.
    destruct (digit_facts c Hc) as [_ [_ [_ [-> [-> _]]]]]. reflexivity. }
  rewrite Hsign. unfold parse_decimal. unfold ds at 1.
  rewrite take_digits_zero. rewrite Unsigned.of_to.
  cbn [Z.of_N]. cbn iota.
  assert (Hcnt : 0 < Z.of_nat (Decimal.nb_digits (Pos.to_uint p))).
  { pose proof (Unsigned.to_uint_nonnil p) as Hnn.
    destruct (Pos.to_uint p); try congruence; simpl Decimal.nb_digits; lia. }
  destruct (0 <? 0 + Z.of_nat (Decimal.nb_digits (Pos.to_uint p)) + 0) eqn:Hpos;
    [|lia].
  simpl take_exponent. cbn iota.
  unfold nearest_of_decimal, nearest_of_Z.
  replace (0 - 0 - 0)%Z with 0 by lia.
  destruct neg; simpl; rewrite Pos.mul_1_r; reflexivity.
Qed.

Lemma float_of_str_of_int (n : Z) :
  float_of_str (str_of_int n) = Ok (nearest_of_Z n).
Proof.
  destruct n as [|p|p].
  - reflexivity.
  - assert (H := float_of_str_digits false p). simpl append in H.
    unfold str_of_int, NilZero.string_of_int, NilZero.string_of_uint.
    simpl Z.to_int. pose proof (Unsigned.to_uint_nonnil p) as Hnn.
    destruct (Pos.to_uint p); try congruence; exact H.
  - assert (H := float_of_str_digits true p).
    unfold str_of_int, NilZero.string_of_int, NilZero.string_of_uint.
    simpl Z.to_int. pose proof (Unsigned.to_uint_nonnil p) as Hnn.
    destruct (Pos.to_uint p); try congruence; exact H.
Qed.

Lemma float_of_int_converts (n : Z) :
  float_of_int n <> Raise OverflowError ->
  float_of_int n = Ok (nearest_of_Z n).
Proof.
  unfold float_of_int. destruct (nearest_of_Z n); intros H;
    try reflexivity. now contradict H.
Qed.

Lemma float_of_int_overflow_sign (p : positive) :
  float_of_int (Zpos p) = Raise OverflowError ->
  nearest_of_Z (Zpos p) = S754_infinity false.
Proof.
  unfold float_of_int. destruct (nearest_of_Z (Zpos p)) as [| s | |] eqn:Hn;
    try discriminate. intros _. f_equal.
  unfold nearest_of_Z, binary_normalize, binary_round in Hn.
  destruct (shl_align p 0 _) as [mz ez].
  unfold binary_round_aux in Hn.
  destruct (shr_fexp prec emax (Zpos mz) ez loc_Exact) as [mrs' e'].
  destruct (shr_fexp prec emax _ e' loc_Exact) as [mrs'' e''].
  destruct (shr_m mrs''); try discriminate Hn.
  destruct (e'' <=? emax - prec); try discriminate Hn.
  now injection Hn.
Qed.

Lemma step_same_float (g : globals) (e1 e2 : list (string * value))
    (field : string) (v1 v2 : value) :
  lookup field e1 = Some v1 -> lookup field e2 = Some v2 ->
  py_float v1 = py_float v2 ->
  refund_field_step g (VDict e1) field = refund_field_step g (VDict e2) field.
Proof.
  intros H1 H2 Hf. unfold refund_field_step. simpl. rewrite H1, H2. simpl.
  now rewrite Hf.
Qed.

(** X11.  A number sent as text is judged like the number.  Replacing, in
    any of the candidate fields, an int that [float] can convert by the
    string of its decimal digits leaves the result of the evaluator
    unchanged. *)
Theorem decimal_text_judged_like_the_int :
  forall (g : globals) (e1 e2 : list (string * value)),
    (forall field,
        In field refund_fields ->
        lookup field e1 = lookup field e2 \/
        exists n,
          lookup field e1 = Some (VInt n) /\
          lookup field e2 = Some (VStr (str_of_int n)) /\
          float_of_int n <> Raise OverflowError) ->
    check_refund_amount g (VDict e1) = check_refund_amount g (VDict e2).
Proof.
  intros g e1 e2. unfold check_refund_amount.
  induction refund_fields as [|f rest IH]; intros H; [reflexivity|].
  assert (Hs : refund_field_step g (VDict e1) f
               = refund_field_step g (VDict e2) f).
  { destruct (H f (or_introl eq_refl)) as [Heq | [n [H1 [H2 Hn]]]].
    - now apply step_reads_lookup.
    - apply (step_same_float g e1 e2 f (VInt n) (VStr (str_of_int n)) H1 H2).
      simpl. rewrite float_of_str_of_int. now apply float_of_int_converts. }
  simpl. rewrite Hs. rewrite IH; [reflexivity|].
  intros field Hin. apply H. now right.
Qed.

Lemma decimal_text_judged_like_the_int_witness :
  check_refund_amount module_globals (VDict [("refund", VInt 750)])
    = check_refund_amount module_globals (VDict [("refund", VStr "750")]).
Proof.
  apply (decimal_text_judged_like_the_int module_globals
           [("refund", VInt 750)] [("refund", VStr "750")]).
  intros field H. simpl in H.
  destruct H as [<- | [<- | [<- | []]]].
  - left. reflexivity.
  - right. exists 750. repeat split. vm_compute. discriminate.
  - left. reflexivity.
Defined.

(** X12.  An amount too large for a float is answered when it comes as
    text and not when it comes as a number.  In a mapping free of listed
    phrases whose first present candidate field holds the decimal digits,
    as a string, of a positive int that [float] cannot convert, the string
    reads as infinity and the audit returns BLOCKED with the reason
    [Refund amount $inf exceeds maximum of $<MAX_REFUND_AMOUNT>]; with the
    int itself in that field the evaluator raises [OverflowError]. *)
Theorem oversized_text_blocked_oversized_int_raises :
  forall (g : globals) (pre post : list string) (field : string) (n : Z),
    refund_fields = (pre ++ field :: post)%list ->
    0 < n ->
    float_of_int n = Raise OverflowError ->
    (forall entries,
        (forall f, In f pre -> lookup f entries = None) ->
        lookup field entries = Some (VStr (str_of_int n)) ->
        (forall k, In k (BANNED_KEYWORDS g) ->
                   phrase_in k (VDict entries) = false) ->
        audit_request g (VDict entries)
          = Ok (blocked ("Refund amount $inf exceeds maximum of $"
                           ++ str_of_int (MAX_REFUND_AMOUNT g)), 200)) /\
    (forall entries,
        (forall f, In f pre -> lookup f entries = None) ->
        lookup field entries = Some (VInt n) ->
        check_refund_amount g (VDict entries) = Raise OverflowError).
Proof.
  intros g pre post field n Hsplit Hpos Hov.
  destruct n as [|p|p]; try lia.
  assert (Hinf := float_of_int_overflow_sign p Hov).
  split.
  - intros entries Hpre Hl Hclean.
    assert (Hc : check_refund_amount g (VDict entries)
                 = Ok (true, Some (S754_infinity false))).
    { unfold check_refund_amount. rewrite Hsplit.
      apply mapping_first_violation.
      - intros f v Hf Hl'. rewrite (Hpre f Hf) in Hl'. discriminate.
      - intros f a' Hf [es [v [Heq [Hl' _]]]]. injection Heq as <-.
        rewrite (Hpre f Hf) in Hl'. discriminate.
      - exists entries, (VStr (str_of_int (Zpos p))). repeat split; auto.
        simpl. now rewrite float_of_str_of_int, Hinf. }
    apply (audit_request_refund g (VDict entries) _ eq_refl Hclean Hc).
  - intros entries Hpre Hl. unfold check_refund_amount. rewrite Hsplit.
    clear Hsplit. induction pre as [|f pre IH].
    + simpl. now rewrite (step_overflow g entries field (VInt (Zpos p)) Hl Hov).
    + simpl app. rewrite for_field_in_continue.
      * apply IH. intros f' Hf'. apply Hpre. now right.
      * apply step_absent. apply Hpre. now left.
Qed.

Lemma oversized_text_blocked_oversized_int_raises_witness :
  check_refund_amount module_globals huge_refund = Raise OverflowError.
Proof.
  refine (proj2 (oversized_text_blocked_oversized_int_raises module_globals
                   ["refund_amount"] ["amount"] "refund" (10 ^ 400)
                   eq_refl _ _)
            [("refund", VInt (10 ^ 400))] _ _).
  - vm_compute. reflexivity.
  - vm_compute. reflexivity.
  - intros f [<- | []]. reflexivity.
  - reflexivity.
Defined.

(** ** Strings and lists *)

(** X13.  For a payload that is a string or a list the keyword scan alone
    decides: the audit never raises, never gives a refund reason, and
    returns BLOCKED with the banned-keyword reason when the scan reports a
    phrase and APPROVED when it does not, with status 200 either way. *)
Theorem string_or_list_decided_by_scan :
  forall (g : globals) (data : value),
    (exists s, data = VStr s) \/ (exists items, data = VList items) ->
    audit_request g data
      = Ok (match check_for_banned_keywords g (str data) with
            | (true, keyword) => blocked (keyword_reason keyword)
            | (false, _) => approved
            end, 200) /\
    (fst (check_for_banned_keywords g (str data)) = false <->
     audit_request g data = Ok (approved, 200)).
Proof.
  intros g data Hshape.
  assert (Hnone : is_none data = false)
    by (destruct Hshape as [[s ->] | [l ->]]; reflexivity).
  assert (Hc : check_refund_amount g data = Ok (false, None)).
  { destruct Hshape as [[s ->] | [l ->]];
      apply for_field_in_all_continue; intros field;
      [apply step_string | apply step_list]. }
  assert (Haudit : audit_request g data
      = Ok (match check_for_banned_keywords g (str data) with
            | (true, keyword) => blocked (keyword_reason keyword)
            | (false, _) => approved
            end, 200)).
  { unfold audit_request. rewrite Hnone.
    destruct (check_for_banned_keywords g (str data)) as [[] kw];
      [reflexivity | now rewrite Hc]. }
  split; [exact Haudit|]. rewrite Haudit.
  destruct (check_for_banned_keywords g (str data)) as [[] kw]; simpl;
    split; intros H; try reflexivity; discriminate H.
Qed.

Lemma string_or_list_decided_by_scan_witness :
  audit_request module_globals (VList [VStr "refund"; VInt 9000])
    = Ok (match check_for_banned_keywords module_globals
                  (str (VList [VStr "refund"; VInt 9000])) with
          | (true, keyword) => blocked (keyword_reason keyword)
          | (false, _) => approved
          end, 200) /\
  (fst (check_for_banned_keywords module_globals
          (str (VList [VStr "refund"; VInt 9000]))) = false <->
   audit_request module_globals (VList [VStr "refund"; VInt 9000])
     = Ok (approved, 200)).
Proof.
  apply (string_or_list_decided_by_scan module_globals
           (VList [VStr "refund"; VInt 9000])).
  right. now eexists.
Defined.

(* ===================================================================== *)
(** * Properties of the launcher                                          *)
(* ===================================================================== *)

Import StartSystem.

Lemma chars_snoc (cur : string) (c x : ascii) :
  In x (list_ascii_of_string (snoc cur c)) ->
  In x (list_ascii_of_string cur) \/ x = c.
Proof.
  unfold snoc. induction cur as [|y cur IH]; simpl.
  - intros [<- | []]. now right.
  - intros [<- | H]; [left; now left|].
    destruct (IH H) as [H' | ->]; [left; now right | now right].
Qed.

Lemma snoc_not_empty (cur : string) (c : ascii) : snoc cur c <> EmptyString.
Proof. unfold snoc. destruct cur; discriminate. Qed.

(** What [split] returns are fields. *)
Lemma split_from_fields (s cur p : string) :
  (forall c, In c (list_ascii_of_string cur) -> is_space c = false) ->
  In p (split_from s cur) -> is_field p.
Proof.
  revert cur. induction s as [|c t IH]; intros cur Hcur Hp.
  - simpl in Hp. destruct cur as [|y cur]; [destruct Hp|].
    destruct Hp as [<- | []]. split; [discriminate | exact Hcur].
  - simpl in Hp. destruct (is_space c) eqn:Hc.
    + destruct cur as [|y cur].
      * apply (IH EmptyString); [intros x [] | exact Hp].
      * destruct Hp as [<- | Hp]; [split; [discriminate | exact Hcur]|].
        apply (IH EmptyString); [intros x [] | exact Hp].
    + apply (IH (snoc cur c)); [|exact Hp].
      intros x Hx. destruct (chars_snoc cur c x Hx) as [H | ->]; auto.
Qed.

(** A text with a character that is not white space has a field. *)
Lemma split_from_not_empty (s cur : string) :
  cur <> EmptyString \/
  (exists c, In c (list_ascii_of_string s) /\ is_space c = false) ->
  split_from s cur <> [].
Proof.
  revert cur. induction s as [|c t IH]; intros cur H.
  - destruct H as [H | [c [[] _]]]. simpl. destruct cur; [congruence | discriminate].
  - simpl. destruct (is_space c) eqn:Hc.
    + destruct cur as [|y cur]; [|discriminate].
      apply IH. right. destruct H as [H | [x [[<- | Hx] Hsp]]];
        [congruence | congruence | now exists x].
    + apply IH. left. apply snoc_not_empty.
Qed.

Lemma last_item_in (parts : list string) (x : string) :
  last_item parts = Some x -> In x parts.
Proof.
  induction parts as [|y rest IH]; [discriminate|].
  destruct rest as [|z rest].
  - simpl. intros H. injection H as <-. now left.
  - intros H. right. apply IH. exact H.
Qed.

Lemma last_item_some (parts : list string) :
  parts <> [] -> exists x, last_item parts = Some x.
Proof.
  induction parts as [|y rest IH]; [congruence|]. intros _.
  destruct rest as [|z rest]; [now exists y|].
  destruct IH as [x Hx]; [discriminate|]. now exists x.
Qed.

Lemma str_contains_first_char (c : ascii) (sub s : string) :
  str_contains (String c sub) s = true -> In c (list_ascii_of_string s).
Proof.
  induction s as [|x s IH]; simpl; [discriminate|].
  intros H. apply orb_true_iff in H. destruct H as [H | H].
  - apply andb_true_iff in H. destruct H as [H _].
    apply Ascii.eqb_eq in H. now left.
  - right. now apply IH.
Qed.

(** The line that matches has a last field. *)
Lemma listener_has_pid (port : Z) (line : string) :
  listens_on port line = true ->
  exists pid, last_item (split line) = Some pid /\ is_field pid.
Proof.
  intros H. unfold listens_on in H. apply andb_true_iff in H.
  destruct H as [_ H].
  assert (Hne : split line <> []).
  { apply split_from_not_empty. right. exists "L"%char.
    split; [now apply (str_contains_first_char _ "ISTENING") | reflexivity]. }
  destruct (last_item_some _ Hne) as [pid Hpid]. exists pid.
  split; [exact Hpid|].
  apply (split_from_fields line EmptyString pid); [intros c []|].
  now apply last_item_in.
Qed.

Lemma for_line_in_kills_once (os : system) (port : Z) (lines : list string) :
  (List.length (filter is_kill (for_line_in os port lines)) <= 1)%nat.
Proof.
  induction lines as [|line rest IH]; simpl; [lia|].
  destruct (listens_on port line); [|exact IH].
  destruct (last_item (split line)) as [pid|]; simpl; [|lia].
  destruct (os (taskkill pid)); simpl; lia.
Qed.

Lemma for_line_in_skip (os : system) (port : Z) (pre rest : list string) :
  (forall l, In l pre -> listens_on port l = false) ->
  for_line_in os port (pre ++ rest) = for_line_in os port rest.
Proof.
  induction pre as [|l pre IH]; intros H; [reflexivity|].
  simpl. rewrite (H l) by now left. apply IH.
  intros l' Hl'. apply H. now right.
Qed.

(** X14.  One call ends at most one process.  Whatever [netstat] prints
    and however the commands end, the trace holds at most one [taskkill];
    it holds none, and nothing is printed after the first line, when no
    line of the output has both [:<port>] and [LISTENING] in it; and when
    [netstat] itself cannot be run, the exception is printed and nothing
    is killed. *)
Theorem launcher_kills_at_most_one :
  forall (os : system) (port : Z),
    (List.length (filter is_kill (kill_process_on_port os port)) <= 1)%nat /\
    (forall stdout,
        os netstat = Completed stdout ->
        (forall line, In line (splitlines stdout) ->
                      listens_on port line = false) ->
        kill_process_on_port os port = [checking_line port; Run netstat]) /\
    (forall message,
        os netstat = Failed message ->
        kill_process_on_port os port
          = [checking_line port; Run netstat; error_line port message]).
Proof.
  intros os port. split; [|split].
  - unfold kill_process_on_port. simpl.
    destruct (os netstat) as [stdout|message]; simpl; [|lia].
    apply for_line_in_kills_once.
  - intros stdout Hos Hnone. unfold kill_process_on_port. rewrite Hos.
    rewrite <- (app_nil_r (splitlines stdout)).
    now rewrite (for_line_in_skip os port (splitlines stdout) [] Hnone).
  - intros message Hos. unfold kill_process_on_port. now rewrite Hos.
Qed.

Lemma launcher_kills_at_most_one_witness :
  kill_process_on_port sample_system 3000
    = [checking_line 3000; Run netstat].
Proof.
  apply (proj1 (proj2 (launcher_kills_at_most_one sample_system 3000))
           sample_netstat).
  - reflexivity.
  - intros line H. vm_compute in H.
    repeat (destruct H as [<- | H]; [vm_compute; reflexivity|]). destruct H.
Defined.

(** X15.  Which process is ended.  When [netstat] answers, the first line
    of its output that has both [:<port>] and [LISTENING] in it decides:
    the process id is the last white-space-separated field of that line,
    which always exists (the [IndexError] of [parts[-1]] cannot occur), is
    not empty and holds no white space; that id is announced and handed to
    [taskkill /F /PID], and the lines after it are not looked at.  The
    test is a substring test: a line for port 8000 also matches port 80. *)
Theorem launcher_kills_first_listener :
  forall (os : system) (port : Z) (stdout : string)
         (pre post : list string) (line : string),
    os netstat = Completed stdout ->
    splitlines stdout = (pre ++ line :: post)%list ->
    (forall l, In l pre -> listens_on port l = false) ->
    listens_on port line = true ->
    exists pid,
      last_item (split line) = Some pid /\
      is_field pid /\
      kill_process_on_port os port
        = (checking_line port
             :: Run netstat
             :: killing_line pid port
             :: Run (taskkill pid)
             :: match os (taskkill pid) with
                | Completed _ => []
                | Failed message => [error_line port message]
                end).
Proof.
  intros os port stdout pre post line Hos Hsplit Hpre Hline.
  destruct (listener_has_pid port line Hline) as [pid [Hpid Hfield]].
  exists pid. split; [exact Hpid|]. split; [exact Hfield|].
  unfold kill_process_on_port. rewrite Hos, Hsplit.
  rewrite (for_line_in_skip os port pre (line :: post) Hpre).
  simpl. now rewrite Hline, Hpid.
Qed.

Lemma launcher_kills_first_listener_witness :
  exists pid,
    last_item (split "  TCP    0.0.0.0:8000    0.0.0.0:0    LISTENING    4321")
      = Some pid /\
    is_field pid /\
    kill_process_on_port sample_system 80
      = (checking_line 80
           :: Run netstat
           :: killing_line pid 80
           :: Run (taskkill pid)
           :: match sample_system (taskkill pid) with
              | Completed _ => []
              | Failed message => [error_line 80 message]
              end).
Proof.
  apply (launcher_kills_first_listener sample_system 80 sample_netstat []
           ["  TCP    0.0.0.0:5000    0.0.0.0:0    LISTENING    1234";
            "  TCP    127.0.0.1:5000  0.0.0.0:0    LISTENING    5678"]).
  - reflexivity.
  - vm_compute. reflexivity.
  - intros l [].
  - vm_compute. reflexivity.
Defined.
